(** * Frame reference counting and resource-handle wrappers of the camera server

    A shallow embedding of [src/Frame.h] and [include/cameraserver_oo.inl]:
    the reference-counted [Frame] handle over a shared [Data] block, and the
    object-oriented wrappers ([VideoProperty], [VideoSource], [VideoSink],
    the listeners) around the integer handles of the backend.

    Pointers are optional addresses ([None] is [nullptr]); the [Data] blocks
    live in a finite map, so that every copy of a [Frame] aliases the same
    counter.  [int] is the 32-bit two's-complement integer of the platforms
    the library targets, and [std::atomic_int] arithmetic wraps. *)

From Stdlib Require Import ZArith Lia List.
From stdpp Require Import base option strings list gmap.

Local Open Scope Z_scope.

(** ** 32-bit [int] *)

Definition INT_MAX : Z := 2147483647.
Definition INT_MIN : Z := -2147483648.

(** The value an [int] holds after an arithmetic result [z] is stored in it. *)
Definition wrap_int (z : Z) : Z := (z + 2147483648) mod 4294967296 - 2147483648.

Definition in_int (z : Z) : Prop := INT_MIN <= z <= INT_MAX.

Module Frame_h.

(** ** Data model *)

Abbreviation addr := positive.

(** Modelled from the spec: [Image] ([Image.h] is not among the sources), the
    "contiguous byte buffer with length" of the data model; [image_size] and
    [image_data] stand for [Image::size()] and [Image::data()]. *)
Record Image := mkImage {
  image_bytes : list Byte.byte;
  image_base : addr
}.

Definition image_size (i : Image) : Z := Z.of_nat (length (image_bytes i)).
Definition image_data (i : Image) : option addr := Some (image_base i).

(** [struct Data]: the atomic counter, the capture time (ticks since the
    epoch of [system_clock]) and the image. *)
Record Data := mkData {
  refcount : Z;
  timestamp : Z;
  image : Image
}.

(** A freshly built [Data] has [refcount{0}]. *)
Definition Data_new (t : Z) (i : Image) : Data :=
  {| refcount := 0; timestamp := t; image := i |}.

(** [class Frame]: two raw pointers. *)
Record Frame := mkFrame {
  m_source : option addr;
  m_data : option addr
}.

(** The memory a [Frame] operation runs in: the [Data] blocks by address, and
    the [ReleaseFrame] notifications made so far, oldest first. *)
Record World := mkWorld {
  heap : gmap addr Data;
  released : list Frame
}.

(** ** Operations: state passing, [None] for a dereference of an address
    that holds no [Data] *)

Definition Op (A : Type) : Type := World -> option (A * World).

Definition ret {A} (a : A) : Op A := fun w => Some (a, w).

Definition bind {A B} (m : Op A) (k : A -> Op B) : Op B :=
  fun w => match m w with
           | Some (a, w') => k a w'
           | None => None
           end.

#[global] Instance Op_ret : MRet Op := @ret.
#[global] Instance Op_bind : MBind Op := fun A B k m => bind m k.

(** [p->field] for a [Data*]. *)
Definition deref (d : addr) : Op Data :=
  fun w => match heap w !! d with
           | Some D => Some (D, w)
           | None => None
           end.

Definition store_refcount (d : addr) (D : Data) (r : Z) (w : World) : World :=
  {| heap := <[d := {| refcount := r; timestamp := timestamp D; image := image D |}]> (heap w);
     released := released w |}.

(** [++(d->refcount)] and [--(d->refcount)] on the [std::atomic_int]: one
    read-modify-write, the new value is returned. *)
Definition pre_incr (d : addr) : Op Z :=
  fun w => match heap w !! d with
           | Some D => let r := wrap_int (refcount D + 1) in
                       Some (r, store_refcount d D r w)
           | None => None
           end.

Definition pre_decr (d : addr) : Op Z :=
  fun w => match heap w !! d with
           | Some D => let r := wrap_int (refcount D - 1) in
                       Some (r, store_refcount d D r w)
           | None => None
           end.

(** Modelled from the spec: [Frame::ReleaseFrame] is declared in [Frame.h]
    and defined elsewhere; it is the "reclamation notification to the owning
    backend", recorded here with the frame it is made for. *)
Definition ReleaseFrame (this : Frame) : Op unit :=
  fun w => Some (tt, {| heap := heap w; released := released w ++ [this] |}).

(** [Frame() noexcept : m_source{nullptr}, m_data{nullptr} {}] *)
Definition Frame_default : Frame := {| m_source := None; m_data := None |}.

(** [Frame(SourceImpl& source, Data* data)] *)
Definition Frame_from (source : addr) (data : option addr) : Op Frame :=
  let this := {| m_source := Some source; m_data := data |} in
  match m_data this with
  | Some d => pre_incr d;; ret this
  | None => ret this
  end.

(** [Frame(const Frame& frame)] *)
Definition Frame_copy (frame : Frame) : Op Frame :=
  let this := {| m_source := m_source frame; m_data := m_data frame |} in
  match m_data this with
  | Some d => pre_incr d;; ret this
  | None => ret this
  end.

(** [friend void swap(Frame& first, Frame& second)]: the two objects after
    the exchange. *)
Definition swap (first second : Frame) : Frame * Frame :=
  (* swap(first.m_source, second.m_source); *)
  let (first, second) :=
    ({| m_source := m_source second; m_data := m_data first |},
     {| m_source := m_source first; m_data := m_data second |}) in
  (* swap(first.m_data, second.m_data); *)
  ({| m_source := m_source first; m_data := m_data second |},
   {| m_source := m_source second; m_data := m_data first |}).

(** [void DecRef()] *)
Definition DecRef (this : Frame) : Op unit :=
  match m_data this with
  | Some d => r ← pre_decr d;
              if r =? 0 then ReleaseFrame this else ret tt
  | None => ret tt
  end.

(** [~Frame() { DecRef(); }] *)
Definition Frame_dtor (this : Frame) : Op unit := DecRef this.

(** [Frame(Frame&& other) noexcept : Frame() { swap( *this, other); }]:
    the new object and what is left in [other]. *)
Definition Frame_move (other : Frame) : Op (Frame * Frame) :=
  let this := Frame_default in
  ret (swap this other).

(** [Frame& operator=(Frame other)]: [other] is the by-value parameter; it
    is destroyed when the call returns. *)
Definition Frame_assign (this other : Frame) : Op Frame :=
  let (this, other) := swap this other in
  Frame_dtor other;; ret this.

(** [a = b]: the parameter is copy-constructed from [b]. *)
Definition Frame_copy_assign (this frame : Frame) : Op Frame :=
  other ← Frame_copy frame; Frame_assign this other.

(** [a = std::move(b)]: the parameter is move-constructed from [b]; the
    result is the assigned object and what is left in [b]. *)
Definition Frame_move_assign (this src : Frame) : Op (Frame * Frame) :=
  p ← Frame_move src;
  this' ← Frame_assign this (fst p);
  ret (this', snd p).

(** [explicit operator bool() const { return m_data; }] *)
Definition to_bool (this : Frame) : Op bool :=
  ret (match m_data this with Some _ => true | None => false end).

(** [std::size_t size() const] *)
Definition size (this : Frame) : Op Z :=
  match m_data this with
  | None => ret 0
  | Some d => D ← deref d; ret (image_size (image D))
  end.

(** [const char* data() const] *)
Definition data (this : Frame) : Op (option addr) :=
  match m_data this with
  | None => ret None
  | Some d => D ← deref d; ret (image_data (image D))
  end.

(** [time_point time() const]; [time_point{}] is the epoch, tick 0. *)
Definition time (this : Frame) : Op Z :=
  match m_data this with
  | None => ret 0
  | Some d => D ← deref d; ret (timestamp D)
  end.

End Frame_h.

(** ** Sequences of copies and destructions of one handle *)

Module Frame_runs.
Import Frame_h.

(** [n] copy constructions from [f], one after the other; the copies. *)
Fixpoint copy_n (n : nat) (f : Frame) : Op (list Frame) :=
  match n with
  | O => ret []
  | S n' => c ← Frame_copy f; cs ← copy_n n' f; ret (c :: cs)
  end.

(** The handles of [fs] destroyed from left to right. *)
Fixpoint destroy_all (fs : list Frame) : Op unit :=
  match fs with
  | [] => ret tt
  | f :: fs' => Frame_dtor f;; destroy_all fs'
  end.

(** A frame as the backend hands it out: its [Data] is allocated and the
    handle is the only reference to it. *)
Definition published (f : Frame) (w : World) : Prop :=
  exists d D, m_data f = Some d /\ heap w !! d = Some D /\ refcount D = 1.

(** What [n] copies followed by [n + 1] destructions are to do: the copies
    succeed; destroying any [k <= n] of the [n + 1] handles notifies nobody;
    destroying all of them notifies once, for this frame, and leaves the
    counter at zero. *)
Definition released_once_at_last (n : nat) (f : Frame) (w : World) : Prop :=
  exists cs w1,
    copy_n n f w = Some (cs, w1) /\ length cs = n /\
    (forall k, (k <= n)%nat -> exists w2,
        destroy_all (take k (f :: cs)) w1 = Some (tt, w2) /\
        released w2 = released w) /\
    exists w3 d D3,
      destroy_all (f :: cs) w1 = Some (tt, w3) /\
      released w3 = released w ++ [f] /\
      m_data f = Some d /\ heap w3 !! d = Some D3 /\ refcount D3 = 0.

End Frame_runs.

(** * The object-oriented wrappers ([cameraserver_oo.inl]) *)

(** ** The backend the wrappers delegate to *)

Module cs.

Definition CS_Status := Z.
Definition CS_Handle := Z.
Definition CS_Property := CS_Handle.
Definition CS_Source := CS_Handle.
Definition CS_Sink := CS_Handle.
Definition CS_Listener := CS_Handle.

(** Types and constants that the headers outside the sources declare; the
    wrappers only pass their values on.  [m_status_initial] is what the
    [m_status] member of a wrapper holds before anything is assigned to it. *)
Class Decls := {
  double : Type;
  Mat : Type;
  USBCameraInfo : Type;
  PropertyCallback : Type;
  FrameCallback : Type;
  SourceCallback : Type;
  SinkCallback : Type;
  kNone : Z;
  m_status_initial : CS_Status
}.

(** The functions of the C++ backend API that the wrappers call, each with
    the arguments it is given apart from the trailing [CS_Status*]; the index
    is the C++ return type. *)
Inductive api `{Decls} : Type -> Type :=
  | GetPropertyType (property : CS_Property) : api Z
  | GetPropertyName (property : CS_Property) : api string
  | GetBooleanProperty (property : CS_Property) : api bool
  | SetBooleanProperty (property : CS_Property) (value : bool) : api unit
  | GetDoubleProperty (property : CS_Property) : api double
  | SetDoubleProperty (property : CS_Property) (value : double) : api unit
  | GetPropertyMin (property : CS_Property) : api double
  | GetPropertyMax (property : CS_Property) : api double
  | GetPropertyStep (property : CS_Property) : api double
  | GetPropertyDefault (property : CS_Property) : api double
  | GetStringProperty (property : CS_Property) : api string
  | GetStringPropertyBuf (property : CS_Property) (buf : string) : api (string * string)
  | SetStringProperty (property : CS_Property) (value : string) : api unit
  | GetEnumProperty (property : CS_Property) : api Z
  | SetEnumProperty (property : CS_Property) (value : Z) : api unit
  | GetEnumPropertyChoices (property : CS_Property) : api (list string)
  | CreateUSBSourceDev (name : string) (dev : Z) : api CS_Source
  | CreateUSBSourcePath (name path : string) : api CS_Source
  | CreateHTTPSource (name url : string) : api CS_Source
  | CreateCvSource (name : string) : api CS_Source
  | GetSourceName (source : CS_Source) : api string
  | GetSourceDescription (source : CS_Source) : api string
  | GetSourceLastFrameTime (source : CS_Source) : api Z
  | IsSourceConnected (source : CS_Source) : api bool
  | GetSourceProperty (source : CS_Source) (name : string) : api CS_Property
  | CopySource (source : CS_Source) : api CS_Source
  | ReleaseSource (source : CS_Source) : api unit
  | PutSourceFrame (source : CS_Source) (image : Mat) : api unit
  | NotifySourceError (source : CS_Source) (msg : string) : api unit
  | SetSourceConnected (source : CS_Source) (connected : bool) : api unit
  | CreateSourceProperty (source : CS_Source) (name : string) (type : Z) : api CS_Property
  | CreateSourcePropertyCallback (source : CS_Source) (name : string) (type : Z)
      (onChange : PropertyCallback) : api CS_Property
  | RemoveSourceProperty (source : CS_Source) (property : CS_Property) : api unit
  | RemoveSourcePropertyByName (source : CS_Source) (name : string) : api unit
  | CreateHTTPSink (name listenAddress : string) (port : Z) : api CS_Sink
  | CreateCvSink (name : string) : api CS_Sink
  | CreateCvSinkCallback (name : string) (processFrame : FrameCallback) : api CS_Sink
  | GetSinkName (sink : CS_Sink) : api string
  | GetSinkDescription (sink : CS_Sink) : api string
  | SetSinkSource (sink : CS_Sink) (source : CS_Source) : api unit
  | GetSinkSourceProperty (sink : CS_Sink) (name : string) : api CS_Property
  | GetSinkSource (sink : CS_Sink) : api CS_Source
  | CopySink (sink : CS_Sink) : api CS_Sink
  | ReleaseSink (sink : CS_Sink) : api unit
  | GrabSinkFrame (sink : CS_Sink) (image : Mat) : api Z
  | GetSinkError (sink : CS_Sink) : api string
  | SetSinkEnabled (sink : CS_Sink) (enabled : bool) : api unit
  | AddSourceListener (callback : SourceCallback) (eventMask : Z) : api CS_Listener
  | RemoveSourceListener (handle : CS_Listener) : api unit
  | AddSinkListener (callback : SinkCallback) (eventMask : Z) : api CS_Listener
  | RemoveSinkListener (handle : CS_Listener) : api unit
  | EnumerateUSBCameras : api (list USBCameraInfo).

(** A backend: its state, and what a call does given the status the
    [CS_Status*] points at: the returned value, the status afterwards and
    the new state. *)
Class Backend `{Decls} := {
  backend_state : Type;
  exec : forall R, api R -> CS_Status -> backend_state -> R * CS_Status * backend_state
}.

(** One call as the backend saw it: the function with its arguments and the
    status it found behind the pointer. *)
Record call `{Decls} := Call {
  call_type : Type;
  call_fn : api call_type;
  call_status : CS_Status
}.
Arguments Call {_ _} _ _.

Section Monad.
Context `{Backend}.

(** The backend and the calls made so far, oldest first. *)
Record World := mkWorld {
  be : backend_state;
  calls : list call
}.

Definition W (A : Type) : Type := World -> A * World.

#[global] Instance W_ret : MRet W := fun A a w => (a, w).
#[global] Instance W_bind : MBind W :=
  fun A B k m w => let (a, w') := m w in k a w'.

(** [f(args..., &status)]: the returned value and the status afterwards. *)
Definition invoke {R} (f : api R) (status : CS_Status) : W (R * CS_Status) :=
  fun w =>
    let '(r, s, b) := exec R f status (be w) in
    ((r, s), {| be := b; calls := calls w ++ [Call f status] |}).

End Monad.
End cs.

(** ** [class VideoProperty] *)

Module VideoProperty.
Import cs.

Record t := mk {
  m_status : CS_Status;
  m_handle : CS_Property;
  m_type : Z
}.

Definition set_status (s : CS_Status) (this : t) : t :=
  {| m_status := s; m_handle := m_handle this; m_type := m_type this |}.

Section Methods.
Context `{Backend}.

(** [f(args..., &m_status)] *)
Definition call_with_status {R} (f : api R) (this : t) : W (R * t) :=
  p ← invoke f (m_status this); mret (p.1, set_status p.2 this).

Definition GetName (this : t) : W (string * t) :=
  let this := set_status 0 this in
  call_with_status (GetPropertyName (m_handle this)) this.

Definition GetBoolean (this : t) : W (bool * t) :=
  let this := set_status 0 this in
  call_with_status (GetBooleanProperty (m_handle this)) this.

Definition SetBoolean (value : bool) (this : t) : W (unit * t) :=
  let this := set_status 0 this in
  call_with_status (SetBooleanProperty (m_handle this) value) this.

Definition GetDouble (this : t) : W (double * t) :=
  let this := set_status 0 this in
  call_with_status (GetDoubleProperty (m_handle this)) this.

Definition SetDouble (value : double) (this : t) : W (unit * t) :=
  let this := set_status 0 this in
  call_with_status (SetDoubleProperty (m_handle this) value) this.

Definition GetMin (this : t) : W (double * t) :=
  let this := set_status 0 this in
  call_with_status (GetPropertyMin (m_handle this)) this.

Definition GetMax (this : t) : W (double * t) :=
  let this := set_status 0 this in
  call_with_status (GetPropertyMax (m_handle this)) this.

Definition GetStep (this : t) : W (double * t) :=
  let this := set_status 0 this in
  call_with_status (GetPropertyStep (m_handle this)) this.

Definition GetDefault (this : t) : W (double * t) :=
  let this := set_status 0 this in
  call_with_status (GetPropertyDefault (m_handle this)) this.

Definition GetString (this : t) : W (string * t) :=
  let this := set_status 0 this in
  call_with_status (GetStringProperty (m_handle this)) this.

(** [GetString(llvm::SmallVectorImpl<char>& buf)]: the returned reference
    and the buffer afterwards. *)
Definition GetStringBuf (buf : string) (this : t) : W ((string * string) * t) :=
  let this := set_status 0 this in
  call_with_status (GetStringPropertyBuf (m_handle this) buf) this.

Definition SetString (value : string) (this : t) : W (unit * t) :=
  let this := set_status 0 this in
  call_with_status (SetStringProperty (m_handle this) value) this.

Definition GetEnum (this : t) : W (Z * t) :=
  let this := set_status 0 this in
  call_with_status (GetEnumProperty (m_handle this)) this.

Definition SetEnum (value : Z) (this : t) : W (unit * t) :=
  let this := set_status 0 this in
  call_with_status (SetEnumProperty (m_handle this) value) this.

Definition GetChoices (this : t) : W (list string * t) :=
  let this := set_status 0 this in
  call_with_status (GetEnumPropertyChoices (m_handle this)) this.

(** [VideoProperty(CS_Property handle) : m_handle(handle)]; the two casts
    of the type keep its integer value. *)
Definition ctor (handle : CS_Property) : W t :=
  let m_status := 0 in
  if handle =? 0 then
    mret {| m_status := m_status; m_handle := handle; m_type := kNone |}
  else
    p ← invoke (GetPropertyType handle) m_status;
    mret {| m_status := p.2; m_handle := handle; m_type := p.1 |}.

End Methods.
End VideoProperty.

(** ** [class VideoSource] *)

Module VideoSource.
Import cs.

Record t := mk {
  m_status : CS_Status;
  m_handle : CS_Source
}.

Definition set_status (s : CS_Status) (this : t) : t :=
  {| m_status := s; m_handle := m_handle this |}.

Definition set_handle (h : CS_Source) (this : t) : t :=
  {| m_status := m_status this; m_handle := h |}.

Section Methods.
Context `{Backend}.

(** Modelled from the spec: the default constructor, the constructor from a
    handle, the boolean conversion and [swap] are in the class declaration,
    which is not among the sources.  "Default construct: identifier 0";
    "an identifier of 0 is always invalid"; a move "transfers the identifier,
    leaves the source at 0". *)
Definition default : t := {| m_status := m_status_initial; m_handle := 0 |}.

Definition from_handle (handle : CS_Source) : t :=
  {| m_status := m_status_initial; m_handle := handle |}.

Definition to_bool (this : t) : bool := negb (m_handle this =? 0).

Definition swap (first second : t) : t * t := (second, first).

(** [f(args..., &m_status)] *)
Definition call_with_status {R} (f : api R) (this : t) : W (R * t) :=
  p ← invoke f (m_status this); mret (p.1, set_status p.2 this).

(** [VideoSource(const VideoSource& source)] *)
Definition copy (source : t) : W t :=
  if m_handle source =? 0 then
    mret {| m_status := m_status_initial; m_handle := 0 |}
  else
    p ← invoke (CopySource (m_handle source)) m_status_initial;
    mret {| m_status := p.2; m_handle := p.1 |}.

(** [VideoSource(VideoSource&& other) noexcept : VideoSource()]: the new
    object and what is left in [other]. *)
Definition move (other : t) : W (t * t) :=
  let this := default in
  mret (swap this other).

(** [~VideoSource()]; the object as the destructor leaves it. *)
Definition dtor (this : t) : W t :=
  let this := set_status 0 this in
  if negb (m_handle this =? 0) then
    p ← call_with_status (ReleaseSource (m_handle this)) this; mret p.2
  else mret this.

(** [VideoSource& operator=(VideoSource other) noexcept]: [other] is the
    by-value parameter, destroyed when the call returns. *)
Definition assign (this other : t) : W t :=
  let (this, other) := swap this other in
  dtor other;; mret this.

(** [a = b] and [a = std::move(b)]: the parameter is copy- or
    move-constructed from [b]. *)
Definition copy_assign (this source : t) : W t :=
  other ← copy source; assign this other.

Definition move_assign (this src : t) : W (t * t) :=
  p ← move src;
  this' ← assign this p.1;
  mret (this', p.2).

Definition GetName (this : t) : W (string * t) :=
  let this := set_status 0 this in
  call_with_status (GetSourceName (m_handle this)) this.

Definition GetDescription (this : t) : W (string * t) :=
  let this := set_status 0 this in
  call_with_status (GetSourceDescription (m_handle this)) this.

Definition GetLastFrameTime (this : t) : W (Z * t) :=
  let this := set_status 0 this in
  call_with_status (GetSourceLastFrameTime (m_handle this)) this.

Definition IsConnected (this : t) : W (bool * t) :=
  let this := set_status 0 this in
  call_with_status (IsSourceConnected (m_handle this)) this.

Definition GetProperty (name : string) (this : t) : W (VideoProperty.t * t) :=
  let this := set_status 0 this in
  p ← call_with_status (GetSourceProperty (m_handle this) name) this;
  property ← VideoProperty.ctor p.1;
  mret (property, p.2).

End Methods.
End VideoSource.

(** ** The source classes derived from [VideoSource] *)

Module USBCamera.
Import cs.
Section Methods.
Context `{Backend}.

(** [USBCamera(llvm::StringRef name, int dev)] *)
Definition ctor_dev (name : string) (dev : Z) : W VideoSource.t :=
  let this := VideoSource.default in
  p ← VideoSource.call_with_status (CreateUSBSourceDev name dev) this;
  mret (VideoSource.set_handle p.1 p.2).

(** [USBCamera(llvm::StringRef name, llvm::StringRef path)] *)
Definition ctor_path (name path : string) : W VideoSource.t :=
  let this := VideoSource.default in
  p ← VideoSource.call_with_status (CreateUSBSourcePath name path) this;
  mret (VideoSource.set_handle p.1 p.2).

(** [static std::vector<USBCameraInfo> EnumerateUSBCameras()] *)
Definition EnumerateUSBCameras : W (list USBCameraInfo) :=
  let status := 0 in
  p ← invoke cs.EnumerateUSBCameras status;
  mret p.1.

End Methods.
End USBCamera.

Module HTTPCamera.
Import cs.
Section Methods.
Context `{Backend}.

Definition ctor (name url : string) : W VideoSource.t :=
  let this := VideoSource.default in
  p ← VideoSource.call_with_status (CreateHTTPSource name url) this;
  mret (VideoSource.set_handle p.1 p.2).

End Methods.
End HTTPCamera.

Module CvSource.
Import cs.
Import VideoSource.
Section Methods.
Context `{Backend}.

Definition ctor (name : string) : W t :=
  let this := default in
  p ← call_with_status (CreateCvSource name) this;
  mret (set_handle p.1 p.2).

Definition PutFrame (image : Mat) (this : t) : W (unit * t) :=
  let this := set_status 0 this in
  call_with_status (PutSourceFrame (m_handle this) image) this.

Definition NotifyError (msg : string) (this : t) : W (unit * t) :=
  let this := set_status 0 this in
  call_with_status (NotifySourceError (m_handle this) msg) this.

Definition SetConnected (connected : bool) (this : t) : W (unit * t) :=
  let this := set_status 0 this in
  call_with_status (SetSourceConnected (m_handle this) connected) this.

Definition CreateProperty (name : string) (type : Z) (this : t)
  : W (VideoProperty.t * t) :=
  let this := set_status 0 this in
  p ← call_with_status (CreateSourceProperty (m_handle this) name type) this;
  property ← VideoProperty.ctor p.1;
  mret (property, p.2).

(** The overload with [onChange]; the closure handed to the backend, which
    calls [onChange] on a [VideoProperty] built from the handle, is
    represented by [onChange]. *)
Definition CreatePropertyCallback (name : string) (type : Z)
    (onChange : PropertyCallback) (this : t) : W (VideoProperty.t * t) :=
  let this := set_status 0 this in
  p ← call_with_status
        (CreateSourcePropertyCallback (m_handle this) name type onChange) this;
  property ← VideoProperty.ctor p.1;
  mret (property, p.2).

Definition RemoveProperty (property : VideoProperty.t) (this : t) : W (unit * t) :=
  let this := set_status 0 this in
  call_with_status
    (RemoveSourceProperty (m_handle this) (VideoProperty.m_handle property)) this.

Definition RemovePropertyByName (name : string) (this : t) : W (unit * t) :=
  let this := set_status 0 this in
  call_with_status (RemoveSourcePropertyByName (m_handle this) name) this.

End Methods.
End CvSource.

(** ** [class VideoSink] and the classes derived from it *)

Module VideoSink.
Import cs.

Record t := mk {
  m_status : CS_Status;
  m_handle : CS_Sink
}.

Definition set_status (s : CS_Status) (this : t) : t :=
  {| m_status := s; m_handle := m_handle this |}.

Definition set_handle (h : CS_Sink) (this : t) : t :=
  {| m_status := m_status this; m_handle := h |}.

Section Methods.
Context `{Backend}.

(** Modelled from the spec: the default constructor and [swap] are in the
    class declaration, which is not among the sources ("Default construct:
    identifier 0"; a move "transfers the identifier, leaves the source at
    0"). *)
Definition default : t := {| m_status := m_status_initial; m_handle := 0 |}.

Definition swap (first second : t) : t * t := (second, first).

Definition call_with_status {R} (f : api R) (this : t) : W (R * t) :=
  p ← invoke f (m_status this); mret (p.1, set_status p.2 this).

(** [VideoSink(const VideoSink& sink)] *)
Definition copy (sink : t) : W t :=
  if m_handle sink =? 0 then
    mret {| m_status := m_status_initial; m_handle := 0 |}
  else
    p ← invoke (CopySink (m_handle sink)) m_status_initial;
    mret {| m_status := p.2; m_handle := p.1 |}.

(** [VideoSink(VideoSink&& other) noexcept : VideoSink()] *)
Definition move (other : t) : W (t * t) :=
  let this := default in
  mret (swap this other).

(** [~VideoSink()] *)
Definition dtor (this : t) : W t :=
  let this := set_status 0 this in
  if negb (m_handle this =? 0) then
    p ← call_with_status (ReleaseSink (m_handle this)) this; mret p.2
  else mret this.

(** [VideoSink& operator=(VideoSink other) noexcept] *)
Definition assign (this other : t) : W t :=
  let (this, other) := swap this other in
  dtor other;; mret this.

Definition copy_assign (this sink : t) : W t :=
  other ← copy sink; assign this other.

Definition move_assign (this src : t) : W (t * t) :=
  p ← move src;
  this' ← assign this p.1;
  mret (this', p.2).

Definition GetName (this : t) : W (string * t) :=
  let this := set_status 0 this in
  call_with_status (GetSinkName (m_handle this)) this.

Definition GetDescription (this : t) : W (string * t) :=
  let this := set_status 0 this in
  call_with_status (GetSinkDescription (m_handle this)) this.

(** [void SetSource(VideoSource source)]; the by-value parameter is
    destroyed when the call returns. *)
Definition SetSource (source : VideoSource.t) (this : t) : W (unit * t) :=
  let this := set_status 0 this in
  r ← (if negb (VideoSource.to_bool source) then
         call_with_status (SetSinkSource (m_handle this) 0) this
       else
         call_with_status
           (SetSinkSource (m_handle this) (VideoSource.m_handle source)) this);
  VideoSource.dtor source;;
  mret r.

Definition GetSource (this : t) : W (VideoSource.t * t) :=
  let this := set_status 0 this in
  p ← call_with_status (GetSinkSource (m_handle this)) this;
  mret (VideoSource.from_handle p.1, p.2).

Definition GetSourceProperty (name : string) (this : t) : W (VideoProperty.t * t) :=
  let this := set_status 0 this in
  p ← call_with_status (GetSinkSourceProperty (m_handle this) name) this;
  property ← VideoProperty.ctor p.1;
  mret (property, p.2).

End Methods.
End VideoSink.

Module HTTPSink.
Import cs.
Section Methods.
Context `{Backend}.

Definition ctor (name listenAddress : string) (port : Z) : W VideoSink.t :=
  let this := VideoSink.default in
  p ← VideoSink.call_with_status (CreateHTTPSink name listenAddress port) this;
  mret (VideoSink.set_handle p.1 p.2).

End Methods.
End HTTPSink.

Module CvSink.
Import cs.
Import VideoSink.
Section Methods.
Context `{Backend}.

Definition ctor (name : string) : W t :=
  let this := default in
  p ← call_with_status (CreateCvSink name) this;
  mret (set_handle p.1 p.2).

Definition ctor_callback (name : string) (processFrame : FrameCallback) : W t :=
  let this := default in
  p ← call_with_status (CreateCvSinkCallback name processFrame) this;
  mret (set_handle p.1 p.2).

Definition GrabFrame (image : Mat) (this : t) : W (Z * t) :=
  let this := set_status 0 this in
  call_with_status (GrabSinkFrame (m_handle this) image) this.

Definition GetError (this : t) : W (string * t) :=
  let this := set_status 0 this in
  call_with_status (GetSinkError (m_handle this)) this.

Definition SetEnabled (enabled : bool) (this : t) : W (unit * t) :=
  let this := set_status 0 this in
  call_with_status (SetSinkEnabled (m_handle this) enabled) this.

End Methods.
End CvSink.

(** ** The listeners *)

Module SourceListener.
Import cs.

Record t := mk { m_handle : CS_Listener }.

Section Methods.
Context `{Backend}.

(** Modelled from the spec: the default constructor and [swap] are in the
    class declaration, which is not among the sources; a listener "owns a
    subscription identifier", 0 when it holds nothing. *)
Definition default : t := {| m_handle := 0 |}.

Definition swap (first second : t) : t * t := (second, first).

(** [SourceListener(callback, eventMask)]; the closure handed to the
    backend, which calls [callback] on a [VideoSource] built from the handle,
    is represented by [callback]. *)
Definition ctor (callback : SourceCallback) (eventMask : Z) : W t :=
  let status := 0 in
  p ← invoke (AddSourceListener callback eventMask) status;
  mret {| m_handle := p.1 |}.

(** [SourceListener(SourceListener&& other) noexcept : SourceListener()] *)
Definition move (other : t) : W (t * t) :=
  let this := default in
  mret (swap this other).

(** [~SourceListener()] *)
Definition dtor (this : t) : W unit :=
  let status := 0 in
  if negb (m_handle this =? 0) then
    invoke (RemoveSourceListener (m_handle this)) status;; mret tt
  else mret tt.

End Methods.
End SourceListener.

Module SinkListener.
Import cs.

Record t := mk { m_handle : CS_Listener }.

Section Methods.
Context `{Backend}.

(** Modelled from the spec: the default constructor and [swap], as for
    [SourceListener]. *)
Definition default : t := {| m_handle := 0 |}.

Definition swap (first second : t) : t * t := (second, first).

(** [SinkListener(callback, eventMask)] *)
Definition ctor (callback : SinkCallback) (eventMask : Z) : W t :=
  let status := 0 in
  p ← invoke (AddSinkListener callback eventMask) status;
  mret {| m_handle := p.1 |}.

(** [SinkListener(SinkListener&& other) noexcept : SinkListener()] *)
Definition move (other : t) : W (t * t) :=
  let this := default in
  mret (swap this other).

(** [~SinkListener()] *)
Definition dtor (this : t) : W unit :=
  let status := 0 in
  if negb (m_handle this =? 0) then
    invoke (RemoveSinkListener (m_handle this)) status;; mret tt
  else mret tt.

End Methods.
End SinkListener.

(** ** Two small backends to run the wrappers on *)

Module Sample.
Import cs.

(** The opaque C++ types carry no information here. *)
Definition decls : Decls := {|
  double := unit; Mat := unit; USBCameraInfo := unit;
  PropertyCallback := unit; FrameCallback := unit;
  SourceCallback := unit; SinkCallback := unit;
  kNone := 0; m_status_initial := 0
|}.

(** The value a call returns: [h] where a handle is returned, an empty or
    zero value elsewhere. *)
Definition result (h : CS_Handle) (R : Type) (f : @api decls R) : R :=
  match f in api R return R with
  | GetPropertyType _ => 1
  | GetPropertyName _ => EmptyString
  | GetBooleanProperty _ => false
  | SetBooleanProperty _ _ => tt
  | GetDoubleProperty _ => tt
  | SetDoubleProperty _ _ => tt
  | GetPropertyMin _ => tt
  | GetPropertyMax _ => tt
  | GetPropertyStep _ => tt
  | GetPropertyDefault _ => tt
  | GetStringProperty _ => EmptyString
  | GetStringPropertyBuf _ buf => (buf, buf)
  | SetStringProperty _ _ => tt
  | GetEnumProperty _ => 0
  | SetEnumProperty _ _ => tt
  | GetEnumPropertyChoices _ => []
  | CreateUSBSourceDev _ _ => h
  | CreateUSBSourcePath _ _ => h
  | CreateHTTPSource _ _ => h
  | CreateCvSource _ => h
  | GetSourceName _ => EmptyString
  | GetSourceDescription _ => EmptyString
  | GetSourceLastFrameTime _ => 0
  | IsSourceConnected _ => false
  | GetSourceProperty _ _ => h
  | CopySource _ => h
  | ReleaseSource _ => tt
  | PutSourceFrame _ _ => tt
  | NotifySourceError _ _ => tt
  | SetSourceConnected _ _ => tt
  | CreateSourceProperty _ _ _ => h
  | CreateSourcePropertyCallback _ _ _ _ => h
  | RemoveSourceProperty _ _ => tt
  | RemoveSourcePropertyByName _ _ => tt
  | CreateHTTPSink _ _ _ => h
  | CreateCvSink _ => h
  | CreateCvSinkCallback _ _ => h
  | GetSinkName _ => EmptyString
  | GetSinkDescription _ => EmptyString
  | SetSinkSource _ _ => tt
  | GetSinkSourceProperty _ _ => h
  | GetSinkSource _ => h
  | CopySink _ => h
  | ReleaseSink _ => tt
  | GrabSinkFrame _ _ => 0
  | GetSinkError _ => EmptyString
  | SetSinkEnabled _ _ => tt
  | AddSourceListener _ _ => h
  | RemoveSourceListener _ => tt
  | AddSinkListener _ _ => h
  | RemoveSinkListener _ => tt
  | EnumerateUSBCameras => []
  end.

(** A backend on which every call succeeds: handle 7 where one is returned,
    the status left as found.  Its state counts the calls. *)
Definition ok : @Backend decls := {|
  backend_state := nat;
  exec := fun R f status b => (result 7 R f, status, S b)
|}.

(** A backend on which every call fails: handle 0 where one is returned,
    and the status set to [code]. *)
Definition failing (code : CS_Status) : @Backend decls := {|
  backend_state := nat;
  exec := fun R f status b => (result 0 R f, code, S b)
|}.

End Sample.

(** * Properties of [Frame] *)

(** ** Arithmetic of the wrapped counter *)

Lemma wrap_int_id (z : Z) : in_int z -> wrap_int z = z.
Proof.
  unfold in_int, INT_MIN, INT_MAX, wrap_int. intros Hz.
  rewrite Z.mod_small by lia. lia.
Qed.

Lemma wrap_int_range (z : Z) : in_int (wrap_int z).
Proof.
  unfold in_int, INT_MIN, INT_MAX, wrap_int.
  pose proof (Z.mod_pos_bound (z + 2147483648) 4294967296). lia.
Qed.

Lemma wrap_int_add_l (a b : Z) : wrap_int (wrap_int a + b) = wrap_int (a + b).
Proof.
  unfold wrap_int. f_equal.
  replace ((a + 2147483648) mod 4294967296 - 2147483648 + b + 2147483648)
    with ((a + 2147483648) mod 4294967296 + b) by lia.
  rewrite Zplus_mod_idemp_l. f_equal. lia.
Qed.

Lemma wrap_int_zero (z : Z) : wrap_int z = 0 <-> z mod 4294967296 = 0.
Proof.
  unfold wrap_int. split; intros Hz.
  - assert (E : (z + 2147483648) mod 4294967296 = 2147483648) by lia.
    replace z with ((z + 2147483648) - 2147483648) by lia.
    rewrite Zminus_mod, E. reflexivity.
  - rewrite Zplus_mod, Hz. reflexivity.
Qed.

Lemma wrap_int_nonzero (z : Z) : 0 < z < 4294967296 -> wrap_int z <> 0.
Proof.
  intros Hz E. apply wrap_int_zero in E.
  rewrite Z.mod_small in E by lia. lia.
Qed.

Module Frame_spec.
Import Frame_h Frame_runs.

(** A world in which [d] holds the block [D] with its counter set to [r]. *)
Definition counting (d : addr) (D : Data) (r : Z)
    (h : gmap addr Data) (l : list Frame) : World :=
  {| heap := <[d := {| refcount := r; timestamp := timestamp D; image := image D |}]> h;
     released := l |}.

Lemma counting_intro (d : addr) (D : Data) (w : World) :
  heap w !! d = Some D ->
  w = counting d D (refcount D) (heap w) (released w).
Proof.
  intros Hd. destruct w as [h l], D as [r t i]; simpl in *.
  unfold counting; simpl. f_equal. symmetry. by apply insert_id.
Qed.

Lemma counting_lookup d D r h l :
  heap (counting d D r h l) !! d
  = Some {| refcount := r; timestamp := timestamp D; image := image D |}.
Proof. unfold counting; simpl. apply lookup_insert_eq. Qed.

Lemma pre_incr_counting d D r h l :
  pre_incr d (counting d D r h l)
  = Some (wrap_int (r + 1), counting d D (wrap_int (r + 1)) h l).
Proof.
  unfold pre_incr. rewrite counting_lookup. simpl.
  unfold store_refcount, counting; simpl. by rewrite insert_insert_eq.
Qed.

Lemma pre_decr_counting d D r h l :
  pre_decr d (counting d D r h l)
  = Some (wrap_int (r - 1), counting d D (wrap_int (r - 1)) h l).
Proof.
  unfold pre_decr. rewrite counting_lookup. simpl.
  unfold store_refcount, counting; simpl. by rewrite insert_insert_eq.
Qed.

Lemma Frame_copy_counting f d D r h l :
  m_data f = Some d ->
  Frame_copy f (counting d D r h l)
  = Some (f, counting d D (wrap_int (r + 1)) h l).
Proof.
  intros Hf. destruct f as [s o]; simpl in Hf; subst o.
  unfold Frame_copy; simpl.
  unfold mbind, Op_bind, bind. by rewrite pre_incr_counting.
Qed.

Lemma Frame_dtor_counting f d D r h l :
  m_data f = Some d ->
  Frame_dtor f (counting d D r h l)
  = Some (tt, counting d D (wrap_int (r - 1)) h
                (if wrap_int (r - 1) =? 0 then l ++ [f] else l)).
Proof.
  intros Hf. unfold Frame_dtor, DecRef. rewrite Hf.
  unfold mbind, Op_bind, bind. rewrite pre_decr_counting.
  destruct (wrap_int (r - 1) =? 0); reflexivity.
Qed.

(** [n] copies add [n] to the counter, in [int] arithmetic. *)
Lemma copy_n_counting f d D h l (n : nat) : forall r,
  m_data f = Some d -> in_int r ->
  copy_n n f (counting d D r h l)
  = Some (repeat f n, counting d D (wrap_int (r + Z.of_nat n)) h l).
Proof.
  induction n as [|n IH]; intros r Hf Hr.
  - simpl. unfold ret. rewrite Z.add_0_r, wrap_int_id by done. reflexivity.
  - cbn [copy_n repeat]. unfold mbind, Op_bind, bind.
    rewrite Frame_copy_counting by done.
    rewrite IH by auto using wrap_int_range.
    unfold ret. rewrite wrap_int_add_l. do 4 f_equal. lia.
Qed.

(** [k] destructions that never bring the counter to zero notify nobody. *)
Lemma destroy_all_quiet f d D h l (k : nat) : forall r,
  m_data f = Some d -> in_int r ->
  (forall j, 1 <= j <= Z.of_nat k -> wrap_int (r - j) <> 0) ->
  destroy_all (repeat f k) (counting d D r h l)
  = Some (tt, counting d D (wrap_int (r - Z.of_nat k)) h l).
Proof.
  induction k as [|k IH]; intros r Hf Hr Hnz.
  - simpl. unfold ret. rewrite Z.sub_0_r, wrap_int_id by done. reflexivity.
  - cbn [destroy_all repeat]. unfold mbind, Op_bind, bind.
    rewrite Frame_dtor_counting by done.
    assert (E1 : (wrap_int (r - 1) =? 0) = false).
    { apply Z.eqb_neq, Hnz. lia. }
    rewrite E1, IH; [|done|apply wrap_int_range|].
    + rewrite <- Z.add_opp_r, wrap_int_add_l. do 4 f_equal. lia.
    + intros j Hj. rewrite <- Z.add_opp_r, wrap_int_add_l.
      replace (r - 1 + - j) with (r - (j + 1)) by lia. apply Hnz. lia.
Qed.

Lemma destroy_all_app fs gs w :
  destroy_all (fs ++ gs) w
  = match destroy_all fs w with
    | Some (_, w') => destroy_all gs w'
    | None => None
    end.
Proof.
  revert w. induction fs as [|f fs IH]; intros w; simpl.
  - reflexivity.
  - unfold mbind, Op_bind, bind. destruct (Frame_dtor f w) as [[[] w']|]; auto.
Qed.

Lemma take_repeat_cons {A} (x : A) (k n : nat) :
  (k <= S n)%nat -> take k (x :: repeat x n) = repeat x k.
Proof.
  intros Hk. change (x :: repeat x n) with (repeat x (S n)).
  revert k Hk. generalize (S n) as m. induction m as [|m IH]; intros [|k] Hk; simpl; try done.
  - lia.
  - f_equal. apply IH. lia.
Qed.

(** *** Sample worlds *)

Definition sample_image : Image := {| image_bytes := []; image_base := 9%positive |}.

(** One block at address 1 whose counter is [r], and a handle to it. *)
Definition sample_world (r : Z) : World :=
  {| heap := {[ 1%positive := {| refcount := r; timestamp := 5; image := sample_image |} ]};
     released := [] |}.

Definition sample_frame : Frame :=
  {| m_source := Some 2%positive; m_data := Some 1%positive |}.

Lemma sample_world_counting r :
  sample_world r
  = counting 1%positive (Data_new 5 sample_image) r ∅ [].
Proof. unfold sample_world, counting. simpl. by rewrite insert_empty. Qed.

Lemma sample_published : published sample_frame (sample_world 1).
Proof.
  exists 1%positive, {| refcount := 1; timestamp := 5; image := sample_image |}.
  split; [reflexivity|]. split; [|reflexivity].
  unfold sample_world; simpl. apply lookup_singleton_eq.
Qed.

(** The constructor from a fresh block publishes it. *)
Lemma Frame_from_published source d D w :
  heap w !! d = Some D -> refcount D = 0 ->
  exists f w', Frame_from source (Some d) w = Some (f, w') /\
               m_source f = Some source /\ published f w' /\
               released w' = released w.
Proof.
  intros Hd H0. rewrite (counting_intro d D w Hd), H0.
  unfold Frame_from; simpl. unfold mbind, Op_bind, bind.
  rewrite pre_incr_counting. eexists _, _. split; [reflexivity|].
  repeat split. eexists d, _. repeat split.
  - apply counting_lookup.
  - reflexivity.
Qed.

(** ** C1: copies followed by destructions *)

(** C1 (amended): for a published frame and every [n] below 2^32, [n] copy
    constructions followed by [n + 1] destructions make [ReleaseFrame] run
    exactly once, at the last destruction, when the counter reaches zero,
    and at none of the destructions before it. *)
Theorem copies_then_destroys_release_once (f : Frame) (w : World) (n : nat) :
  published f w ->
  Z.of_nat n < 4294967296 ->
  released_once_at_last n f w.
Proof.
  intros (d & D & Hf & Hd & H1) Hn.
  rewrite (counting_intro d D w Hd), H1. simpl.
  set (h := heap w). set (l := released w).
  assert (Hin : in_int 1) by (unfold in_int, INT_MIN, INT_MAX; lia).
  assert (Hq : forall k, (k <= n)%nat ->
            destroy_all (repeat f k) (counting d D (wrap_int (1 + Z.of_nat n)) h l)
            = Some (tt, counting d D (wrap_int (1 + Z.of_nat n - Z.of_nat k)) h l)).
  { intros k Hk. rewrite destroy_all_quiet; [|done|apply wrap_int_range|].
    - rewrite <- Z.add_opp_r, wrap_int_add_l. do 3 f_equal.
    - intros j Hj. rewrite <- Z.add_opp_r, wrap_int_add_l.
      apply wrap_int_nonzero. lia. }
  exists (repeat f n), (counting d D (wrap_int (1 + Z.of_nat n)) h l).
  split; [by apply copy_n_counting|].
  split; [apply repeat_length|].
  split.
  - intros k Hk. eexists. rewrite take_repeat_cons by lia.
    rewrite Hq by done. split; reflexivity.
  - rewrite repeat_cons, destroy_all_app, Hq by done.
    cbn [destroy_all]. unfold mbind, Op_bind, bind.
    rewrite Frame_dtor_counting by done.
    assert (E0 : wrap_int (wrap_int (1 + Z.of_nat n - Z.of_nat n) - 1) = 0).
    { rewrite <- Z.add_opp_r, wrap_int_add_l.
      match goal with |- wrap_int ?x = 0 => replace x with 0 by lia end.
      reflexivity. }
    rewrite E0. simpl.
    eexists _, d, _. split; [reflexivity|].
    split; [reflexivity|]. split; [done|].
    split; [apply counting_lookup|reflexivity].
Qed.

Lemma copies_then_destroys_release_once_witness :
  released_once_at_last 2 sample_frame (sample_world 1).
Proof.
  apply copies_then_destroys_release_once.
  - exact sample_published.
  - lia.
Defined.

(** After 2^32 copies the counter is back at its value, and the first
    destruction already finds zero. *)
Lemma wrapped_copies_release_early (n : nat) :
  Z.of_nat n = 4294967296 ->
  ~ released_once_at_last n sample_frame (sample_world 1).
Proof.
  intros Hn (cs & w1 & Hcopy & _ & Hquiet & _).
  rewrite sample_world_counting, copy_n_counting in Hcopy;
    [|reflexivity|unfold in_int, INT_MIN, INT_MAX; lia].
  rewrite Hn in Hcopy. change (wrap_int (1 + 4294967296)) with 1 in Hcopy.
  injection Hcopy as <- <-.
  destruct (Hquiet 1%nat) as (w2 & Hd & Hrel); [lia|].
  change (take 1 (sample_frame :: repeat sample_frame n)) with [sample_frame] in Hd.
  cbn [destroy_all] in Hd. unfold mbind, Op_bind, bind in Hd.
  rewrite Frame_dtor_counting in Hd by reflexivity.
  simpl in Hd. injection Hd as <-. discriminate Hrel.
Qed.

(** C1 as stated, for every [n], fails at [n = 2^32]: the frame is
    published, and the first of the [2^32 + 1] destructions notifies. *)
Lemma unbounded_copies_counterexample :
  published sample_frame (sample_world 1) /\
  ~ released_once_at_last (N.to_nat 4294967296) sample_frame (sample_world 1).
Proof.
  split; [exact sample_published|].
  apply wrapped_copies_release_early.
  rewrite N_nat_Z. reflexivity.
Qed.

(** ** C2: accessors of the null frame *)

(** A handle whose [m_data] is null is answered without looking at the
    heap. *)
Lemma null_accessors (f : Frame) (w : World) :
  m_data f = None ->
  size f w = Some (0, w) /\ data f w = Some (None, w) /\
  time f w = Some (0, w) /\ to_bool f w = Some (false, w).
Proof. intros Hf. unfold size, data, time, to_bool. rewrite Hf. by repeat split. Qed.

(** A non-null handle is dereferenced: on a heap without its block the
    accessors fault. *)
Lemma dangling_accessors_fault (f : Frame) (d : addr) (w : World) :
  m_data f = Some d -> heap w !! d = None ->
  size f w = None /\ data f w = None /\ time f w = None.
Proof.
  intros Hf Hd. unfold size, data, time. rewrite Hf.
  unfold mbind, Op_bind, bind, deref. rewrite Hd. by repeat split.
Qed.

(** C2: on a default-constructed frame, in every world (also one whose heap
    is empty, where any dereference would fault), [size()] returns 0,
    [data()] returns null, [time()] returns the epoch and the boolean
    conversion returns false; the world is left as it was. *)
Theorem default_frame_accessors (w : World) :
  size Frame_default w = Some (0, w) /\
  data Frame_default w = Some (None, w) /\
  time Frame_default w = Some (0, w) /\
  to_bool Frame_default w = Some (false, w).
Proof. by apply null_accessors. Qed.

(** ** C4: copy construction *)

(** C4 as stated: the copy adds exactly one to the counter of the block. *)
Definition copy_adds_one (f : Frame) (w : World) : Prop :=
  forall d D, m_data f = Some d -> heap w !! d = Some D ->
  exists f' w' D', Frame_copy f w = Some (f', w') /\
                   heap w' !! d = Some D' /\ refcount D' = refcount D + 1.

(** At [INT_MAX] the increment wraps to [INT_MIN]. *)
Lemma copy_at_INT_MAX_counterexample :
  ~ copy_adds_one sample_frame (sample_world INT_MAX) /\
  exists w', Frame_copy sample_frame (sample_world INT_MAX) = Some (sample_frame, w') /\
             refcount <$> heap w' !! 1%positive = Some INT_MIN.
Proof.
  assert (E : Frame_copy sample_frame (sample_world INT_MAX)
              = Some (sample_frame,
                      counting 1%positive (Data_new 5 sample_image) INT_MIN ∅ [])).
  { rewrite sample_world_counting, Frame_copy_counting by reflexivity. reflexivity. }
  split.
  - intros Hadd.
    destruct (Hadd 1%positive {| refcount := INT_MAX; timestamp := 5; image := sample_image |})
      as (f' & w' & D' & Hc & Hl & Hr).
    + reflexivity.
    + apply lookup_singleton_eq.
    + rewrite E in Hc. injection Hc as <- <-.
      rewrite counting_lookup in Hl. injection Hl as <-. discriminate Hr.
  - eexists. split; [exact E|]. by rewrite counting_lookup.
Qed.

(** C4 (amended): copy-constructing from a null frame yields a null frame
    and changes nothing.  Copy-constructing from a non-null frame yields a
    handle with the same two pointers and performs one [int] increment of
    the counter of the block they share: the count grows by exactly one
    below [INT_MAX] and wraps to [INT_MIN] at [INT_MAX].  Time stamp and
    image of every block stay as they were, no block is added, and nobody is
    notified. *)
Theorem Frame_copy_shares (f : Frame) (w : World) :
  (m_data f = None -> Frame_copy f w = Some (f, w)) /\
  (forall d D, m_data f = Some d -> heap w !! d = Some D ->
     exists w', Frame_copy f w = Some (f, w') /\
       heap w' !! d = Some {| refcount := wrap_int (refcount D + 1);
                              timestamp := timestamp D; image := image D |} /\
       (INT_MIN <= refcount D < INT_MAX ->
          wrap_int (refcount D + 1) = refcount D + 1) /\
       (refcount D = INT_MAX -> wrap_int (refcount D + 1) = INT_MIN) /\
       (forall d', d' <> d -> heap w' !! d' = heap w !! d') /\
       (forall d', image <$> heap w' !! d' = image <$> heap w !! d') /\
       (forall d', timestamp <$> heap w' !! d' = timestamp <$> heap w !! d') /\
       released w' = released w).
Proof.
  split.
  - intros Hf. destruct f as [s o]; simpl in Hf; subst o. reflexivity.
  - intros d D Hf Hd.
    exists (counting d D (wrap_int (refcount D + 1)) (heap w) (released w)).
    split.
    { etransitivity; [exact (f_equal (Frame_copy f) (counting_intro d D w Hd))|].
      by apply Frame_copy_counting. }
    split; [apply counting_lookup|]. split; [|split; [|split; [|split; [|split]]]].
    + intros Hr. apply wrap_int_id. unfold in_int. lia.
    + intros ->. reflexivity.
    + intros d' Hne. unfold counting; simpl. by rewrite lookup_insert_ne.
    + intros d'. unfold counting; simpl. destruct (decide (d = d')) as [<-|Hne].
      * by rewrite lookup_insert_eq, Hd.
      * by rewrite lookup_insert_ne.
    + intros d'. unfold counting; simpl. destruct (decide (d = d')) as [<-|Hne].
      * by rewrite lookup_insert_eq, Hd.
      * by rewrite lookup_insert_ne.
    + reflexivity.
Qed.

Lemma Frame_copy_shares_witness :
  Frame_copy Frame_default (sample_world 1) = Some (Frame_default, sample_world 1) /\
  exists w', Frame_copy sample_frame (sample_world 1) = Some (sample_frame, w') /\
             refcount <$> heap w' !! 1%positive = Some 2 /\
             image <$> heap w' !! 1%positive = Some sample_image.
Proof.
  destruct (Frame_copy_shares Frame_default (sample_world 1)) as [Hnull _].
  destruct (Frame_copy_shares sample_frame (sample_world 1)) as [_ Hshare].
  split; [apply Hnull; reflexivity|].
  destruct (Hshare 1%positive {| refcount := 1; timestamp := 5; image := sample_image |})
    as (w' & Hc & Hl & _); [reflexivity|reflexivity|].
  exists w'. split; [exact Hc|]. rewrite Hl. split; reflexivity.
Defined.

(** ** Moves of a frame (for C3) *)

Lemma swap_default (other : Frame) : swap Frame_default other = (other, Frame_default).
Proof. by destruct other. Qed.

(** The move constructor takes over both pointers and leaves the null
    frame; the world is not touched. *)
Lemma Frame_move_spec (other : Frame) (w : World) :
  Frame_move other w = Some ((other, Frame_default), w).
Proof. unfold Frame_move, ret. by rewrite swap_default. Qed.

Lemma swap_spec (a b : Frame) : swap a b = (b, a).
Proof. by destruct a, b. Qed.

(** Move assignment is the move followed by the destruction of what the
    target held. *)
Lemma Frame_move_assign_spec (this src : Frame) (w : World) :
  Frame_move_assign this src w
  = match Frame_dtor this w with
    | Some (_, w') => Some ((src, Frame_default), w')
    | None => None
    end.
Proof.
  unfold Frame_move_assign, Frame_assign, mbind, Op_bind, bind.
  rewrite Frame_move_spec. cbn [fst snd]. rewrite swap_spec.
  destruct (Frame_dtor this w) as [[[] w']|]; reflexivity.
Qed.

Lemma Frame_dtor_null (this : Frame) (w : World) :
  m_data this = None -> Frame_dtor this w = Some (tt, w).
Proof. intros Hn. unfold Frame_dtor, DecRef. by rewrite Hn. Qed.

End Frame_spec.

(** * Properties of the wrappers *)

Module Wrapper_spec.
Import cs.

(** Unfolds one wrapper operation down to the backend calls it makes and
    names their outcomes. *)
Ltac wrapper_fields :=
  cbn [VideoProperty.set_status VideoProperty.m_status VideoProperty.m_handle
       VideoProperty.m_type
       VideoSource.set_status VideoSource.set_handle VideoSource.m_status
       VideoSource.m_handle
       VideoSink.set_status VideoSink.set_handle VideoSink.m_status
       VideoSink.m_handle fst snd] in *.

Ltac run_wrapper :=
  cbv beta delta
    [VideoProperty.call_with_status VideoSource.call_with_status
     VideoSink.call_with_status invoke mbind mret W_bind W_ret] in *;
  wrapper_fields;
  repeat match goal with
         | |- context [exec ?R ?f ?s ?b] =>
             let r := fresh "r" in let s' := fresh "s" in let b' := fresh "b" in
             let E := fresh "E" in
             destruct (exec R f s b) as [[r s'] b'] eqn:E; wrapper_fields
         end.

(** The accessor methods of the three wrapper classes with a status, one
    constructor per method of [cameraserver_oo.inl], indexed by the C++
    return type. *)
Inductive VideoProperty_accessor `{Decls} : Type -> Type :=
  | VP_GetName : VideoProperty_accessor string
  | VP_GetBoolean : VideoProperty_accessor bool
  | VP_SetBoolean (value : bool) : VideoProperty_accessor unit
  | VP_GetDouble : VideoProperty_accessor double
  | VP_SetDouble (value : double) : VideoProperty_accessor unit
  | VP_GetMin : VideoProperty_accessor double
  | VP_GetMax : VideoProperty_accessor double
  | VP_GetStep : VideoProperty_accessor double
  | VP_GetDefault : VideoProperty_accessor double
  | VP_GetString : VideoProperty_accessor string
  | VP_GetStringBuf (buf : string) : VideoProperty_accessor (string * string)
  | VP_SetString (value : string) : VideoProperty_accessor unit
  | VP_GetEnum : VideoProperty_accessor Z
  | VP_SetEnum (value : Z) : VideoProperty_accessor unit
  | VP_GetChoices : VideoProperty_accessor (list string).

(** [VideoSource] and, on the same object, [CvSource]. *)
Inductive VideoSource_accessor `{Decls} : Type -> Type :=
  | VS_GetName : VideoSource_accessor string
  | VS_GetDescription : VideoSource_accessor string
  | VS_GetLastFrameTime : VideoSource_accessor Z
  | VS_IsConnected : VideoSource_accessor bool
  | VS_GetProperty (name : string) : VideoSource_accessor VideoProperty.t
  | CS_PutFrame (image : Mat) : VideoSource_accessor unit
  | CS_NotifyError (msg : string) : VideoSource_accessor unit
  | CS_SetConnected (connected : bool) : VideoSource_accessor unit
  | CS_CreateProperty (name : string) (type : Z) : VideoSource_accessor VideoProperty.t
  | CS_CreatePropertyCallback (name : string) (type : Z) (onChange : PropertyCallback)
      : VideoSource_accessor VideoProperty.t
  | CS_RemoveProperty (property : VideoProperty.t) : VideoSource_accessor unit
  | CS_RemovePropertyByName (name : string) : VideoSource_accessor unit.

(** [VideoSink] and, on the same object, [CvSink]. *)
Inductive VideoSink_accessor `{Decls} : Type -> Type :=
  | VK_GetName : VideoSink_accessor string
  | VK_GetDescription : VideoSink_accessor string
  | VK_SetSource (source : VideoSource.t) : VideoSink_accessor unit
  | VK_GetSource : VideoSink_accessor VideoSource.t
  | VK_GetSourceProperty (name : string) : VideoSink_accessor VideoProperty.t
  | CK_GrabFrame (image : Mat) : VideoSink_accessor Z
  | CK_GetError : VideoSink_accessor string
  | CK_SetEnabled (enabled : bool) : VideoSink_accessor unit.

(** The constructors that create a backend resource. *)
Inductive source_factory `{Decls} : Type :=
  | New_USBCamera_dev (name : string) (dev : Z)
  | New_USBCamera_path (name path : string)
  | New_HTTPCamera (name url : string)
  | New_CvSource (name : string).

Inductive sink_factory `{Decls} : Type :=
  | New_HTTPSink (name listenAddress : string) (port : Z)
  | New_CvSink (name : string)
  | New_CvSink_callback (name : string) (processFrame : FrameCallback).

Section Wrappers.
Context `{Backend}.

Definition construct_source (c : source_factory) : W VideoSource.t :=
  match c with
  | New_USBCamera_dev name dev => USBCamera.ctor_dev name dev
  | New_USBCamera_path name path => USBCamera.ctor_path name path
  | New_HTTPCamera name url => HTTPCamera.ctor name url
  | New_CvSource name => CvSource.ctor name
  end.

Definition construct_sink (c : sink_factory) : W VideoSink.t :=
  match c with
  | New_HTTPSink name listenAddress port => HTTPSink.ctor name listenAddress port
  | New_CvSink name => CvSink.ctor name
  | New_CvSink_callback name processFrame => CvSink.ctor_callback name processFrame
  end.

(** The backend function each of them delegates to. *)
Definition source_factory_fn (c : source_factory) : api CS_Source :=
  match c with
  | New_USBCamera_dev name dev => CreateUSBSourceDev name dev
  | New_USBCamera_path name path => CreateUSBSourcePath name path
  | New_HTTPCamera name url => CreateHTTPSource name url
  | New_CvSource name => CreateCvSource name
  end.

Definition sink_factory_fn (c : sink_factory) : api CS_Sink :=
  match c with
  | New_HTTPSink name listenAddress port => CreateHTTPSink name listenAddress port
  | New_CvSink name => CreateCvSink name
  | New_CvSink_callback name processFrame => CreateCvSinkCallback name processFrame
  end.

(** The property a wrapper hands out when the backend gave handle 0. *)
Definition null_property : VideoProperty.t :=
  {| VideoProperty.m_status := 0; VideoProperty.m_handle := 0;
     VideoProperty.m_type := kNone |}.

Definition VideoProperty_call {R} (a : VideoProperty_accessor R)
  : VideoProperty.t -> W (R * VideoProperty.t) :=
  match a in VideoProperty_accessor R return VideoProperty.t -> W (R * VideoProperty.t) with
  | VP_GetName => VideoProperty.GetName
  | VP_GetBoolean => VideoProperty.GetBoolean
  | VP_SetBoolean value => VideoProperty.SetBoolean value
  | VP_GetDouble => VideoProperty.GetDouble
  | VP_SetDouble value => VideoProperty.SetDouble value
  | VP_GetMin => VideoProperty.GetMin
  | VP_GetMax => VideoProperty.GetMax
  | VP_GetStep => VideoProperty.GetStep
  | VP_GetDefault => VideoProperty.GetDefault
  | VP_GetString => VideoProperty.GetString
  | VP_GetStringBuf buf => VideoProperty.GetStringBuf buf
  | VP_SetString value => VideoProperty.SetString value
  | VP_GetEnum => VideoProperty.GetEnum
  | VP_SetEnum value => VideoProperty.SetEnum value
  | VP_GetChoices => VideoProperty.GetChoices
  end.

Definition VideoSource_call {R} (a : VideoSource_accessor R)
  : VideoSource.t -> W (R * VideoSource.t) :=
  match a in VideoSource_accessor R return VideoSource.t -> W (R * VideoSource.t) with
  | VS_GetName => VideoSource.GetName
  | VS_GetDescription => VideoSource.GetDescription
  | VS_GetLastFrameTime => VideoSource.GetLastFrameTime
  | VS_IsConnected => VideoSource.IsConnected
  | VS_GetProperty name => VideoSource.GetProperty name
  | CS_PutFrame image => CvSource.PutFrame image
  | CS_NotifyError msg => CvSource.NotifyError msg
  | CS_SetConnected connected => CvSource.SetConnected connected
  | CS_CreateProperty name type => CvSource.CreateProperty name type
  | CS_CreatePropertyCallback name type onChange =>
      CvSource.CreatePropertyCallback name type onChange
  | CS_RemoveProperty property => CvSource.RemoveProperty property
  | CS_RemovePropertyByName name => CvSource.RemovePropertyByName name
  end.

Definition VideoSink_call {R} (a : VideoSink_accessor R)
  : VideoSink.t -> W (R * VideoSink.t) :=
  match a in VideoSink_accessor R return VideoSink.t -> W (R * VideoSink.t) with
  | VK_GetName => VideoSink.GetName
  | VK_GetDescription => VideoSink.GetDescription
  | VK_SetSource source => VideoSink.SetSource source
  | VK_GetSource => VideoSink.GetSource
  | VK_GetSourceProperty name => VideoSink.GetSourceProperty name
  | CK_GrabFrame image => CvSink.GrabFrame image
  | CK_GetError => CvSink.GetError
  | CK_SetEnabled enabled => CvSink.SetEnabled enabled
  end.


(** ** C10: a property built from handle 0 *)

(** C10: constructing a [VideoProperty] from handle 0 sets its type to
    [kNone] and its status to 0 and leaves the backend alone; in general the
    constructor calls [GetPropertyType], once, exactly when the handle is
    not 0. *)
Theorem VideoProperty_ctor_null (handle : CS_Property) (w : World) :
  VideoProperty.ctor 0 w
    = ({| VideoProperty.m_status := 0; VideoProperty.m_handle := 0;
          VideoProperty.m_type := kNone |}, w) /\
  calls (VideoProperty.ctor handle w).2
    = calls w ++ (if handle =? 0 then [] else [Call (GetPropertyType handle) 0]).
Proof.
  split; [reflexivity|]. unfold VideoProperty.ctor.
  destruct (handle =? 0); run_wrapper; simpl; by rewrite ?app_nil_r.
Qed.

(** ** C6: copy construction of a wrapper *)

Lemma VideoSource_copy_zero (source : VideoSource.t) (w : World) :
  VideoSource.m_handle source = 0 ->
  VideoSource.copy source w
    = ({| VideoSource.m_status := m_status_initial; VideoSource.m_handle := 0 |}, w).
Proof. intros Hz. unfold VideoSource.copy. by rewrite Hz. Qed.

Lemma VideoSource_copy_nonzero (source : VideoSource.t) (w : World) :
  VideoSource.m_handle source <> 0 ->
  let o := exec _ (CopySource (VideoSource.m_handle source)) m_status_initial (be w) in
  VideoSource.copy source w
    = ({| VideoSource.m_status := o.1.2; VideoSource.m_handle := o.1.1 |},
       {| be := o.2;
          calls := calls w ++ [Call (CopySource (VideoSource.m_handle source))
                                    m_status_initial] |}).
Proof.
  intros Hnz. apply Z.eqb_neq in Hnz. unfold VideoSource.copy. rewrite Hnz.
  by run_wrapper.
Qed.

Lemma VideoSink_copy_zero (sink : VideoSink.t) (w : World) :
  VideoSink.m_handle sink = 0 ->
  VideoSink.copy sink w
    = ({| VideoSink.m_status := m_status_initial; VideoSink.m_handle := 0 |}, w).
Proof. intros Hz. unfold VideoSink.copy. by rewrite Hz. Qed.

Lemma VideoSink_copy_nonzero (sink : VideoSink.t) (w : World) :
  VideoSink.m_handle sink <> 0 ->
  let o := exec _ (CopySink (VideoSink.m_handle sink)) m_status_initial (be w) in
  VideoSink.copy sink w
    = ({| VideoSink.m_status := o.1.2; VideoSink.m_handle := o.1.1 |},
       {| be := o.2;
          calls := calls w ++ [Call (CopySink (VideoSink.m_handle sink))
                                    m_status_initial] |}).
Proof.
  intros Hnz. apply Z.eqb_neq in Hnz. unfold VideoSink.copy. rewrite Hnz.
  by run_wrapper.
Qed.

(** C6: the copy constructors of [VideoSource] and [VideoSink] call
    [CopySource] / [CopySink], once and on the copied identifier, exactly
    when that identifier is not 0, and adopt the identifier the backend
    returns; from identifier 0 they yield identifier 0 and leave the world,
    backend state and calls, as it was. *)
Theorem copy_calls_backend_iff_nonzero (source : VideoSource.t) (sink : VideoSink.t)
    (w : World) :
  (calls (VideoSource.copy source w).2
     = calls w ++ (if VideoSource.m_handle source =? 0 then []
                   else [Call (CopySource (VideoSource.m_handle source))
                              m_status_initial])) /\
  (VideoSource.m_handle source = 0 ->
     VideoSource.m_handle (VideoSource.copy source w).1 = 0 /\
     (VideoSource.copy source w).2 = w) /\
  (VideoSource.m_handle source <> 0 ->
     VideoSource.m_handle (VideoSource.copy source w).1
       = (exec _ (CopySource (VideoSource.m_handle source))
                 m_status_initial (be w)).1.1) /\
  (calls (VideoSink.copy sink w).2
     = calls w ++ (if VideoSink.m_handle sink =? 0 then []
                   else [Call (CopySink (VideoSink.m_handle sink))
                              m_status_initial])) /\
  (VideoSink.m_handle sink = 0 ->
     VideoSink.m_handle (VideoSink.copy sink w).1 = 0 /\
     (VideoSink.copy sink w).2 = w) /\
  (VideoSink.m_handle sink <> 0 ->
     VideoSink.m_handle (VideoSink.copy sink w).1
       = (exec _ (CopySink (VideoSink.m_handle sink))
                 m_status_initial (be w)).1.1).
Proof.
  split; [|split; [|split; [|split; [|split]]]].
  - destruct (Z.eqb_spec (VideoSource.m_handle source) 0) as [Hz|Hnz].
    + rewrite VideoSource_copy_zero by done. simpl. by rewrite app_nil_r.
    + by rewrite VideoSource_copy_nonzero.
  - intros Hz. by rewrite VideoSource_copy_zero.
  - intros Hnz. by rewrite VideoSource_copy_nonzero.
  - destruct (Z.eqb_spec (VideoSink.m_handle sink) 0) as [Hz|Hnz].
    + rewrite VideoSink_copy_zero by done. simpl. by rewrite app_nil_r.
    + by rewrite VideoSink_copy_nonzero.
  - intros Hz. by rewrite VideoSink_copy_zero.
  - intros Hnz. by rewrite VideoSink_copy_nonzero.
Qed.

(** ** C7: destruction of a wrapper *)

Lemma VideoSource_dtor_zero (this : VideoSource.t) (w : World) :
  VideoSource.m_handle this = 0 ->
  VideoSource.dtor this w = (VideoSource.set_status 0 this, w).
Proof. intros Hz. unfold VideoSource.dtor. simpl. by rewrite Hz. Qed.

Lemma VideoSource_dtor_nonzero (this : VideoSource.t) (w : World) :
  VideoSource.m_handle this <> 0 ->
  let o := exec _ (ReleaseSource (VideoSource.m_handle this)) 0 (be w) in
  VideoSource.dtor this w
    = (VideoSource.set_status o.1.2 this,
       {| be := o.2;
          calls := calls w ++ [Call (ReleaseSource (VideoSource.m_handle this)) 0] |}).
Proof.
  intros Hnz. apply Z.eqb_neq in Hnz. unfold VideoSource.dtor. simpl.
  rewrite Hnz. simpl. by run_wrapper.
Qed.

Lemma VideoSink_dtor_zero (this : VideoSink.t) (w : World) :
  VideoSink.m_handle this = 0 ->
  VideoSink.dtor this w = (VideoSink.set_status 0 this, w).
Proof. intros Hz. unfold VideoSink.dtor. simpl. by rewrite Hz. Qed.

Lemma VideoSink_dtor_nonzero (this : VideoSink.t) (w : World) :
  VideoSink.m_handle this <> 0 ->
  let o := exec _ (ReleaseSink (VideoSink.m_handle this)) 0 (be w) in
  VideoSink.dtor this w
    = (VideoSink.set_status o.1.2 this,
       {| be := o.2;
          calls := calls w ++ [Call (ReleaseSink (VideoSink.m_handle this)) 0] |}).
Proof.
  intros Hnz. apply Z.eqb_neq in Hnz. unfold VideoSink.dtor. simpl.
  rewrite Hnz. simpl. by run_wrapper.
Qed.




(** ** C5: the status is reset before every delegation *)








(** ** C8: construction that fails *)

Lemma construct_source_spec (c : source_factory) (w : World) :
  let o := exec _ (source_factory_fn c) m_status_initial (be w) in
  construct_source c w
    = ({| VideoSource.m_status := o.1.2; VideoSource.m_handle := o.1.1 |},
       {| be := o.2; calls := calls w ++ [Call (source_factory_fn c) m_status_initial] |}).
Proof.
  destruct c; cbn [construct_source source_factory_fn];
    unfold USBCamera.ctor_dev, USBCamera.ctor_path, HTTPCamera.ctor, CvSource.ctor,
      VideoSource.default; by run_wrapper.
Qed.

Lemma construct_sink_spec (c : sink_factory) (w : World) :
  let o := exec _ (sink_factory_fn c) m_status_initial (be w) in
  construct_sink c w
    = ({| VideoSink.m_status := o.1.2; VideoSink.m_handle := o.1.1 |},
       {| be := o.2; calls := calls w ++ [Call (sink_factory_fn c) m_status_initial] |}).
Proof.
  destruct c; cbn [construct_sink sink_factory_fn];
    unfold HTTPSink.ctor, CvSink.ctor, CvSink.ctor_callback, VideoSink.default;
    by run_wrapper.
Qed.

(** C8 (amended): a source or sink constructor whose backend call returns
    handle 0 and a nonzero status yields an object with identifier 0 that
    holds this status.  A property looked up or created through a source or
    sink whose backend call returns handle 0 is the null property, with
    identifier 0, type [kNone] and its own status 0; the status of the
    failure is held by the source or sink.  A listener whose registration
    returns handle 0 is the default listener; it keeps no status.  All of
    these are total functions. *)
Theorem failed_construction (w : World) (s : CS_Status) (b : backend_state) :
  (forall c, exec _ (source_factory_fn c) m_status_initial (be w) = (0, s, b) ->
     s <> 0 ->
     VideoSource.m_handle (construct_source c w).1 = 0 /\
     VideoSource.m_status (construct_source c w).1 = s /\
     VideoSource.m_status (construct_source c w).1 <> 0) /\
  (forall c, exec _ (sink_factory_fn c) m_status_initial (be w) = (0, s, b) ->
     s <> 0 ->
     VideoSink.m_handle (construct_sink c w).1 = 0 /\
     VideoSink.m_status (construct_sink c w).1 = s /\
     VideoSink.m_status (construct_sink c w).1 <> 0) /\
  (forall name this,
     exec _ (GetSourceProperty (VideoSource.m_handle this) name) 0 (be w) = (0, s, b) ->
     (VideoSource.GetProperty name this w).1
       = (null_property, VideoSource.set_status s this)) /\
  (forall name type this,
     exec _ (CreateSourceProperty (VideoSource.m_handle this) name type) 0 (be w)
       = (0, s, b) ->
     (CvSource.CreateProperty name type this w).1
       = (null_property, VideoSource.set_status s this)) /\
  (forall name type onChange this,
     exec _ (CreateSourcePropertyCallback (VideoSource.m_handle this) name type onChange)
          0 (be w) = (0, s, b) ->
     (CvSource.CreatePropertyCallback name type onChange this w).1
       = (null_property, VideoSource.set_status s this)) /\
  (forall name this,
     exec _ (GetSinkSourceProperty (VideoSink.m_handle this) name) 0 (be w) = (0, s, b) ->
     (VideoSink.GetSourceProperty name this w).1
       = (null_property, VideoSink.set_status s this)) /\
  (forall callback eventMask,
     exec _ (AddSourceListener callback eventMask) 0 (be w) = (0, s, b) ->
     (SourceListener.ctor callback eventMask w).1 = SourceListener.default) /\
  (forall callback eventMask,
     exec _ (AddSinkListener callback eventMask) 0 (be w) = (0, s, b) ->
     (SinkListener.ctor callback eventMask w).1 = SinkListener.default).
Proof.
  repeat apply conj.
  - intros c E Hs. rewrite construct_source_spec, E. by simpl.
  - intros c E Hs. rewrite construct_sink_spec, E. by simpl.
  - intros name this E. unfold VideoSource.GetProperty.
    cbv beta delta [VideoSource.call_with_status invoke mbind mret W_bind W_ret].
    wrapper_fields. by rewrite E.
  - intros name type this E. unfold CvSource.CreateProperty.
    cbv beta delta [VideoSource.call_with_status invoke mbind mret W_bind W_ret].
    wrapper_fields. by rewrite E.
  - intros name type onChange this E. unfold CvSource.CreatePropertyCallback.
    cbv beta delta [VideoSource.call_with_status invoke mbind mret W_bind W_ret].
    wrapper_fields. by rewrite E.
  - intros name this E. unfold VideoSink.GetSourceProperty.
    cbv beta delta [VideoSink.call_with_status invoke mbind mret W_bind W_ret].
    wrapper_fields. by rewrite E.
  - intros callback eventMask E. unfold SourceListener.ctor.
    cbv beta delta [invoke mbind mret W_bind W_ret]. by rewrite E.
  - intros callback eventMask E. unfold SinkListener.ctor.
    cbv beta delta [invoke mbind mret W_bind W_ret]. by rewrite E.
Qed.

(** ** C3: moves *)

Lemma VideoSource_move_assign_spec (this src : VideoSource.t) (w : World) :
  VideoSource.move_assign this src w
    = ((src, VideoSource.default), (VideoSource.dtor this w).2).
Proof.
  unfold VideoSource.move_assign, VideoSource.move, VideoSource.assign,
    VideoSource.swap.
  cbv beta delta [mbind mret W_bind W_ret]. cbn [fst snd].
  by destruct (VideoSource.dtor this w).
Qed.

Lemma VideoSink_move_assign_spec (this src : VideoSink.t) (w : World) :
  VideoSink.move_assign this src w
    = ((src, VideoSink.default), (VideoSink.dtor this w).2).
Proof.
  unfold VideoSink.move_assign, VideoSink.move, VideoSink.assign, VideoSink.swap.
  cbv beta delta [mbind mret W_bind W_ret]. cbn [fst snd].
  by destruct (VideoSink.dtor this w).
Qed.

(** C3 (amended): a move constructor (of [Frame], [VideoSource],
    [VideoSink] and the two listeners) gives the new object what the source
    held, leaves the source in the default state and touches neither a
    reference count nor the backend.  A move assignment likewise hands the
    target what the source held and leaves the source in the default state,
    and then gives up what the target held before, exactly as its destructor
    does: for a [Frame] one decrement of the old block, with [ReleaseFrame]
    at zero; for a source or sink one release call when the old identifier
    is not 0.  Only when the target was empty is nothing counted down and
    the backend not called. *)
Theorem move_leaves_source_empty
    (f g : Frame_h.Frame) (fw : Frame_h.World)
    (src this : VideoSource.t) (ksrc kthis : VideoSink.t)
    (sl : SourceListener.t) (kl : SinkListener.t) (w : World) :
  Frame_h.Frame_move g fw = Some ((g, Frame_h.Frame_default), fw) /\
  Frame_h.Frame_move_assign f g fw
    = match Frame_h.Frame_dtor f fw with
      | Some (_, fw') => Some ((g, Frame_h.Frame_default), fw')
      | None => None
      end /\
  (Frame_h.m_data f = None ->
     Frame_h.Frame_move_assign f g fw = Some ((g, Frame_h.Frame_default), fw)) /\
  VideoSource.move src w = ((src, VideoSource.default), w) /\
  VideoSource.move_assign this src w
    = ((src, VideoSource.default), (VideoSource.dtor this w).2) /\
  (VideoSource.m_handle this = 0 ->
     VideoSource.move_assign this src w = ((src, VideoSource.default), w)) /\
  VideoSink.move ksrc w = ((ksrc, VideoSink.default), w) /\
  VideoSink.move_assign kthis ksrc w
    = ((ksrc, VideoSink.default), (VideoSink.dtor kthis w).2) /\
  (VideoSink.m_handle kthis = 0 ->
     VideoSink.move_assign kthis ksrc w = ((ksrc, VideoSink.default), w)) /\
  SourceListener.move sl w = ((sl, SourceListener.default), w) /\
  SinkListener.move kl w = ((kl, SinkListener.default), w).
Proof.
  repeat apply conj; try reflexivity.
  - apply Frame_spec.Frame_move_spec.
  - apply Frame_spec.Frame_move_assign_spec.
  - intros Hn. rewrite Frame_spec.Frame_move_assign_spec.
    by rewrite Frame_spec.Frame_dtor_null.
  - apply VideoSource_move_assign_spec.
  - intros Hz. rewrite VideoSource_move_assign_spec.
    by rewrite VideoSource_dtor_zero.
  - apply VideoSink_move_assign_spec.
  - intros Hz. rewrite VideoSink_move_assign_spec.
    by rewrite VideoSink_dtor_zero.
Qed.

End Wrappers.

(** ** The theorems at work on the sample backends *)

Section Runs.
#[local] Existing Instance Sample.decls.
#[local] Existing Instance Sample.ok.
Local Open Scope string_scope.

(** A world of the succeeding backend in which nothing has been called. *)
Definition fresh : World := {| be := 0%nat; calls := [] |}.

Definition source5 : VideoSource.t := {| VideoSource.m_status := 0; VideoSource.m_handle := 5 |}.
Definition source0 : VideoSource.t := {| VideoSource.m_status := 0; VideoSource.m_handle := 0 |}.
Definition sink5 : VideoSink.t := {| VideoSink.m_status := 0; VideoSink.m_handle := 5 |}.
Definition sink0 : VideoSink.t := {| VideoSink.m_status := 0; VideoSink.m_handle := 0 |}.

Lemma copy_calls_backend_iff_nonzero_witness :
  (VideoSource.copy source0 fresh).2 = fresh /\
  VideoSource.m_handle (VideoSource.copy source5 fresh).1 = 7 /\
  (VideoSink.copy sink0 fresh).2 = fresh /\
  VideoSink.m_handle (VideoSink.copy sink5 fresh).1 = 7.
Proof.
  destruct (copy_calls_backend_iff_nonzero source0 sink0 fresh)
    as (_ & Hs0 & _ & _ & Hk0 & _).
  destruct (copy_calls_backend_iff_nonzero source5 sink5 fresh)
    as (_ & _ & Hs5 & _ & _ & Hk5).
  split; [apply Hs0; reflexivity|].
  split; [rewrite Hs5; [reflexivity|discriminate]|].
  split; [apply Hk0; reflexivity|].
  rewrite Hk5; [reflexivity|discriminate].
Defined.

(** Two blocks, the first with one reference and the second freshly built
    (count 0), and a handle value for the second. *)
Definition two_blocks : Frame_h.World :=
  {| Frame_h.heap :=
       <[ 3%positive := Frame_h.Data_new 6 Frame_spec.sample_image ]>
         (Frame_h.heap (Frame_spec.sample_world 1));
     Frame_h.released := [] |}.

Definition other_frame : Frame_h.Frame :=
  {| Frame_h.m_source := Some 2%positive; Frame_h.m_data := Some 3%positive |}.

Lemma move_leaves_source_empty_witness :
  Frame_h.Frame_move_assign Frame_h.Frame_default other_frame two_blocks
    = Some ((other_frame, Frame_h.Frame_default), two_blocks) /\
  VideoSource.move_assign source0 source5 fresh = ((source5, VideoSource.default), fresh) /\
  VideoSink.move_assign sink0 sink5 fresh = ((sink5, VideoSink.default), fresh).
Proof.
  destruct (move_leaves_source_empty Frame_h.Frame_default other_frame two_blocks
              source5 source0 sink5 sink0
              SourceListener.default SinkListener.default fresh)
    as (_ & _ & Hf & _ & _ & Hs & _ & _ & Hk & _).
  split; [apply Hf; reflexivity|].
  split; [apply Hs; reflexivity|apply Hk; reflexivity].
Defined.

(** C3 as stated fails for move assignment into an object that holds
    something: assigning to the source with identifier 5 calls
    [ReleaseSource(5)], and assigning to the only handle of a block counts
    that block down to zero and notifies the backend. *)
Lemma move_assign_counterexample :
  calls (VideoSource.move_assign source5 source0 fresh).2
    = [Call (ReleaseSource 5) 0] /\
  exists fw,
    Frame_h.Frame_move_assign Frame_spec.sample_frame other_frame two_blocks
      = Some ((other_frame, Frame_h.Frame_default), fw) /\
    Frame_h.released fw = [Frame_spec.sample_frame] /\
    Frame_h.refcount <$> Frame_h.heap fw !! 1%positive = Some 0 /\
    Frame_h.refcount <$> Frame_h.heap two_blocks !! 1%positive = Some 1.
Proof.
  split; [reflexivity|].
  eexists. split; [reflexivity|]. repeat split.
Qed.



End Runs.

Section Failing_runs.
#[local] Existing Instance Sample.decls.
Local Open Scope string_scope.

(** A world of the backend that fails with [code], nothing called yet. *)
Definition fresh_failing (code : CS_Status) : @World _ (Sample.failing code) :=
  @mkWorld _ (Sample.failing code) 0%nat [].

Lemma failed_construction_witness :
  let B := Sample.failing (-2000) in
  let w := fresh_failing (-2000) in
  VideoSource.m_status (@construct_source _ B (New_CvSource "cam") w).1 = -2000 /\
  VideoSink.m_handle (@construct_sink _ B (New_CvSink "sink") w).1 = 0 /\
  (@VideoSource.GetProperty _ B "gain" source5 w).1
    = (@null_property _, VideoSource.set_status (-2000) source5) /\
  (@SourceListener.ctor _ B tt 1 w).1 = SourceListener.default.
Proof.
  intros B w.
  destruct (@failed_construction _ B w (-2000) 1%nat)
    as (Hsrc & Hsink & Hprop & _ & _ & _ & Hsl & _).
  split; [apply (Hsrc (New_CvSource "cam")); [reflexivity|discriminate]|].
  split; [apply (Hsink (New_CvSink "sink")); [reflexivity|discriminate]|].
  split; [apply Hprop; reflexivity|].
  apply Hsl; reflexivity.
Defined.

(** C8 as stated fails for two of the four kinds.  Under a backend that
    fails with status -2000 the property returned by [GetProperty] has
    identifier 0 and status 0, not a nonzero one, while the source holds
    -2000; and the listener built under a backend failing with status 1 is
    the listener built under one failing with status 2, so that no status
    can be read from it. *)
Lemma failed_construction_counterexample :
  (let r := @VideoSource.GetProperty _ (Sample.failing (-2000)) "gain" source5
              (fresh_failing (-2000)) in
   VideoProperty.m_handle r.1.1 = 0 /\
   VideoProperty.m_status r.1.1 = 0 /\
   VideoSource.m_status r.1.2 = -2000) /\
  (@SourceListener.ctor _ (Sample.failing 1) tt 1 (fresh_failing 1)).1
    = {| SourceListener.m_handle := 0 |} /\
  (@SourceListener.ctor _ (Sample.failing 1) tt 1 (fresh_failing 1)).1
    = (@SourceListener.ctor _ (Sample.failing 2) tt 1 (fresh_failing 2)).1 /\
  (@SinkListener.ctor _ (Sample.failing 1) tt 1 (fresh_failing 1)).1
    = (@SinkListener.ctor _ (Sample.failing 2) tt 1 (fresh_failing 2)).1.
Proof. repeat split. Qed.

End Failing_runs.
End Wrapper_spec.

(** * Further properties of [Frame] *)

Module Frame_more.
Import Frame_h Frame_runs Frame_spec.

(** ** Any interleaving of operations on the handles of one block *)

(** What a holder of a handle equal to [f] may do with it: copy it, destroy
    it, or move it into a new object (the emptied object is destroyed). *)
Inductive handle_op := do_copy | do_destroy | do_move.

Definition run_op (f : Frame) (o : handle_op) : Op unit :=
  match o with
  | do_copy => Frame_copy f;; ret tt
  | do_destroy => Frame_dtor f
  | do_move => p ← Frame_move f; Frame_dtor p.2
  end.

Fixpoint run_ops (f : Frame) (ops : list handle_op) : Op unit :=
  match ops with
  | [] => ret tt
  | o :: ops' => run_op f o;; run_ops f ops'
  end.

(** The number of live handles after an operation, from the number before. *)
Definition live_step (o : handle_op) (n : Z) : Z :=
  match o with
  | do_copy => n + 1
  | do_destroy => n - 1
  | do_move => n
  end.

Fixpoint live_after (ops : list handle_op) (n : Z) : Z :=
  match ops with
  | [] => n
  | o :: ops' => live_after ops' (live_step o n)
  end.

(** After every operation at least one handle is alive and their number
    fits an [int]. *)
Fixpoint stays_live (ops : list handle_op) (n : Z) : bool :=
  match ops with
  | [] => true
  | o :: ops' =>
      (1 <=? live_step o n) && (live_step o n <=? INT_MAX)
      && stays_live ops' (live_step o n)
  end.

Lemma wrap_int_pred_zero (r : Z) :
  in_int r -> (wrap_int (r - 1) =? 0) = (r =? 1).
Proof.
  intros Hr. destruct (Z.eqb_spec r 1) as [->|Hne]; [reflexivity|].
  apply Z.eqb_neq. intros E. apply wrap_int_zero in E.
  unfold in_int, INT_MIN, INT_MAX in Hr.
  Z.to_euclidean_division_equations. lia.
Qed.

Lemma run_ops_counting f d D h l (ops : list handle_op) : forall r,
  m_data f = Some d -> 1 <= r <= INT_MAX ->
  stays_live ops r = true ->
  run_ops f ops (counting d D r h l)
  = Some (tt, counting d D (live_after ops r) h l).
Proof.
  induction ops as [|o ops IH]; intros r Hf Hr Hlive.
  - reflexivity.
  - cbn [stays_live] in Hlive.
    apply andb_prop in Hlive as [Hb Hrest]. apply andb_prop in Hb as [Hlo Hhi].
    apply Z.leb_le in Hlo, Hhi.
    cbn [run_ops live_after]. unfold mbind, Op_bind, bind.
    assert (Hstep : run_op f o (counting d D r h l)
                    = Some (tt, counting d D (live_step o r) h l)).
    { destruct o; cbn [run_op live_step] in *; unfold mbind, Op_bind, bind.
      - rewrite Frame_copy_counting by done.
        rewrite wrap_int_id by (unfold in_int, INT_MIN, INT_MAX in *; lia).
        reflexivity.
      - rewrite Frame_dtor_counting by done.
        rewrite wrap_int_pred_zero by (unfold in_int, INT_MIN, INT_MAX in *; lia).
        rewrite wrap_int_id by (unfold in_int, INT_MIN, INT_MAX in *; lia).
        destruct (Z.eqb_spec r 1) as [->|_]; [lia|reflexivity].
      - rewrite Frame_move_spec. cbn [snd].
        by rewrite Frame_dtor_null. }
    rewrite Hstep. apply IH; [done|lia|done].
Qed.



Lemma counting_other d D r h l d' :
  d' <> d -> heap (counting d D r h l) !! d' = h !! d'.
Proof. intros Hne. unfold counting; simpl. by rewrite lookup_insert_ne. Qed.

(** X1: the counter counts the handles.  Starting from a block whose count
    [r] is the number of live handles, any sequence of copies, destructions
    and moves that keeps at least one handle alive (and at most [INT_MAX])
    runs without fault, leaves the count at the number of live handles,
    notifies nobody, and changes neither the time stamp and image of the
    block nor any other block. *)
Theorem refcount_counts_handles (f : Frame) (d : addr) (D : Data) (w : World)
    (ops : list handle_op) :
  m_data f = Some d -> heap w !! d = Some D ->
  1 <= refcount D <= INT_MAX ->
  stays_live ops (refcount D) = true ->
  exists w', run_ops f ops w = Some (tt, w') /\
    released w' = released w /\
    heap w' !! d = Some {| refcount := live_after ops (refcount D);
                           timestamp := timestamp D; image := image D |} /\
    (forall d', d' <> d -> heap w' !! d' = heap w !! d').
Proof.
  intros Hf Hd Hr Hlive.
  exists (counting d D (live_after ops (refcount D)) (heap w) (released w)).
  split.
  - etransitivity;
      [exact (f_equal (run_ops f ops) (counting_intro d D w Hd))|].
    by apply run_ops_counting.
  - split; [reflexivity|]. split; [apply counting_lookup|].
    intros d' Hne. by apply counting_other.
Qed.

Lemma refcount_counts_handles_witness :
  exists w', run_ops sample_frame [do_copy; do_move; do_copy; do_destroy] (sample_world 1)
             = Some (tt, w') /\
             released w' = [] /\
             refcount <$> heap w' !! 1%positive = Some 2.
Proof.
  destruct (refcount_counts_handles sample_frame 1%positive
              {| refcount := 1; timestamp := 5; image := sample_image |}
              (sample_world 1) [do_copy; do_move; do_copy; do_destroy])
    as (w' & Hrun & Hrel & Hl & _);
    [reflexivity|reflexivity|unfold INT_MAX; simpl; lia|reflexivity|].
  exists w'. split; [exact Hrun|]. split; [exact Hrel|]. by rewrite Hl.
Defined.



(** ** Single operations and how they compose *)

(** X3: a destruction notifies the backend exactly when the count it finds
    is 1.  For any count an [int] can hold, the destructor of a non-null
    handle succeeds, stores the decremented count (wrapping at [INT_MIN]),
    and appends one notification for this frame if the count was 1 and none
    otherwise, also when the count was already 0 or negative. *)
Theorem dtor_notifies_iff_last (f : Frame) (d : addr) (D : Data) (w : World) :
  m_data f = Some d -> heap w !! d = Some D -> in_int (refcount D) ->
  exists w', Frame_dtor f w = Some (tt, w') /\
    released w' = (if refcount D =? 1 then released w ++ [f] else released w) /\
    heap w' !! d = Some {| refcount := wrap_int (refcount D - 1);
                           timestamp := timestamp D; image := image D |} /\
    (forall d', d' <> d -> heap w' !! d' = heap w !! d').
Proof.
  intros Hf Hd Hr.
  exists (counting d D (wrap_int (refcount D - 1)) (heap w)
            (if refcount D =? 1 then released w ++ [f] else released w)).
  split.
  - etransitivity; [exact (f_equal (Frame_dtor f) (counting_intro d D w Hd))|].
    rewrite Frame_dtor_counting by done. by rewrite wrap_int_pred_zero.
  - split; [reflexivity|]. split; [apply counting_lookup|].
    intros d' Hne. by apply counting_other.
Qed.

Lemma dtor_notifies_iff_last_witness :
  (exists w', Frame_dtor sample_frame (sample_world 1) = Some (tt, w') /\
              released w' = [sample_frame]) /\
  (exists w', Frame_dtor sample_frame (sample_world 0) = Some (tt, w') /\
              released w' = [] /\
              refcount <$> heap w' !! 1%positive = Some (-1)) /\
  (exists w', Frame_dtor sample_frame (sample_world INT_MIN) = Some (tt, w') /\
              released w' = [] /\
              refcount <$> heap w' !! 1%positive = Some INT_MAX).
Proof.
  assert (Hint : forall r, INT_MIN <= r <= INT_MAX ->
            in_int (refcount {| refcount := r; timestamp := 5; image := sample_image |}))
    by (intros r Hr; exact Hr).
  destruct (dtor_notifies_iff_last sample_frame 1%positive
              {| refcount := 1; timestamp := 5; image := sample_image |} (sample_world 1))
    as (w1 & H1 & R1 & _);
    [reflexivity|reflexivity|apply Hint; unfold INT_MIN, INT_MAX; lia|].
  destruct (dtor_notifies_iff_last sample_frame 1%positive
              {| refcount := 0; timestamp := 5; image := sample_image |} (sample_world 0))
    as (w0 & H0 & R0 & L0 & _);
    [reflexivity|reflexivity|apply Hint; unfold INT_MIN, INT_MAX; lia|].
  destruct (dtor_notifies_iff_last sample_frame 1%positive
              {| refcount := INT_MIN; timestamp := 5; image := sample_image |}
              (sample_world INT_MIN))
    as (wm & Hm & Rm & Lm & _);
    [reflexivity|reflexivity|apply Hint; unfold INT_MIN, INT_MAX; lia|].
  split; [exists w1; split; [exact H1|exact R1]|].
  split.
  - exists w0. split; [exact H0|]. split; [exact R0|]. by rewrite L0.
  - exists wm. split; [exact Hm|]. split; [exact Rm|]. by rewrite Lm.
Defined.

(** X4: a copy that is destroyed again leaves no trace.  For a non-null
    handle whose block has a count other than 0, copy construction followed
    by the destruction of the copy gives back exactly the world it started
    from, at every count including [INT_MAX], where the increment wraps and
    the decrement wraps back. *)
Theorem copy_then_destroy_restores (f : Frame) (d : addr) (D : Data) (w : World) :
  m_data f = Some d -> heap w !! d = Some D ->
  in_int (refcount D) -> refcount D <> 0 ->
  (c ← Frame_copy f; Frame_dtor c) w = Some (tt, w).
Proof.
  intros Hf Hd Hr Hnz.
  etransitivity;
    [exact (f_equal (c ← Frame_copy f; Frame_dtor c) (counting_intro d D w Hd))|].
  unfold mbind, Op_bind, bind.
  rewrite Frame_copy_counting, Frame_dtor_counting by done.
  rewrite <- Z.add_opp_r, wrap_int_add_l.
  replace (refcount D + 1 + - (1)) with (refcount D) by lia.
  rewrite wrap_int_id by done.
  apply Z.eqb_neq in Hnz. rewrite Hnz.
  by rewrite <- counting_intro.
Qed.

Lemma copy_then_destroy_restores_witness :
  (c ← Frame_copy sample_frame; Frame_dtor c) (sample_world INT_MAX)
  = Some (tt, sample_world INT_MAX).
Proof.
  apply (copy_then_destroy_restores sample_frame 1%positive
           {| refcount := INT_MAX; timestamp := 5; image := sample_image |}).
  - reflexivity.
  - reflexivity.
  - unfold in_int, INT_MIN, INT_MAX. simpl. lia.
  - discriminate.
Defined.

(** X5: copy assignment between handles of the same block, self-assignment
    included, changes nothing.  The parameter is copied (increment) before
    the old contents of the target are destroyed (decrement), so that even
    the only handle of a block can be assigned to itself without the block
    being reclaimed. *)
Theorem copy_assign_same_block (this frame : Frame) (d : addr) (D : Data) (w : World) :
  m_data this = Some d -> m_data frame = Some d -> heap w !! d = Some D ->
  in_int (refcount D) -> refcount D <> 0 ->
  Frame_copy_assign this frame w = Some (frame, w).
Proof.
  intros Ht Hf Hd Hr Hnz.
  etransitivity;
    [exact (f_equal (Frame_copy_assign this frame) (counting_intro d D w Hd))|].
  unfold Frame_copy_assign, Frame_assign, mbind, Op_bind, bind.
  rewrite Frame_copy_counting by done. rewrite swap_spec.
  rewrite Frame_dtor_counting by done.
  rewrite <- Z.add_opp_r, wrap_int_add_l.
  replace (refcount D + 1 + - (1)) with (refcount D) by lia.
  rewrite wrap_int_id by done.
  apply Z.eqb_neq in Hnz. rewrite Hnz.
  unfold ret. by rewrite <- counting_intro.
Qed.

Lemma copy_assign_same_block_witness :
  Frame_copy_assign sample_frame sample_frame (sample_world 1)
  = Some (sample_frame, sample_world 1).
Proof.
  apply (copy_assign_same_block sample_frame sample_frame 1%positive
           {| refcount := 1; timestamp := 5; image := sample_image |}).
  - reflexivity.
  - reflexivity.
  - reflexivity.
  - unfold in_int, INT_MIN, INT_MAX. simpl. lia.
  - discriminate.
Defined.

(** X6: what is read through a live handle does not change.  After any
    sequence of copies, destructions and moves that keeps a handle alive,
    [size()], [data()] and [time()] of a handle return the size and address
    of the image and the time stamp the block had before, the boolean
    conversion is true, and reading leaves the world as it is. *)
Theorem live_handle_reads_published (f : Frame) (d : addr) (D : Data) (w : World)
    (ops : list handle_op) :
  m_data f = Some d -> heap w !! d = Some D ->
  1 <= refcount D <= INT_MAX ->
  stays_live ops (refcount D) = true ->
  exists w', run_ops f ops w = Some (tt, w') /\
    size f w' = Some (image_size (image D), w') /\
    data f w' = Some (image_data (image D), w') /\
    time f w' = Some (timestamp D, w') /\
    to_bool f w' = Some (true, w').
Proof.
  intros Hf Hd Hr Hlive.
  exists (counting d D (live_after ops (refcount D)) (heap w) (released w)).
  split.
  - etransitivity;
      [exact (f_equal (run_ops f ops) (counting_intro d D w Hd))|].
    by apply run_ops_counting.
  - unfold size, data, time, to_bool. rewrite Hf.
    unfold mbind, Op_bind, bind, deref. rewrite counting_lookup.
    by repeat split.
Qed.

Lemma live_handle_reads_published_witness :
  exists w', run_ops sample_frame [do_copy; do_copy; do_destroy] (sample_world 1)
             = Some (tt, w') /\
             time sample_frame w' = Some (5, w') /\
             size sample_frame w' = Some (0, w').
Proof.
  destruct (live_handle_reads_published sample_frame 1%positive
              {| refcount := 1; timestamp := 5; image := sample_image |}
              (sample_world 1) [do_copy; do_copy; do_destroy])
    as (w' & Hrun & Hsize & _ & Htime & _);
    [reflexivity|reflexivity|unfold INT_MAX; simpl; lia|reflexivity|].
  exists w'. split; [exact Hrun|]. split; [exact Htime|exact Hsize].
Defined.

(** X7: a handle built from backend data and dropped again.  Constructing a
    [Frame] from a source and a block and then destroying it restores the
    count of the block; the backend is notified exactly when the count was 0
    before, that is when the block had no other handle.  With a null data
    pointer the handle is null (it keeps the source pointer) and neither the
    construction nor the destruction touches anything. *)
Theorem from_then_destroy (source : addr) (d : addr) (D : Data) (w : World) :
  (heap w !! d = Some D -> in_int (refcount D) ->
     (f ← Frame_from source (Some d); Frame_dtor f) w
     = Some (tt, {| heap := heap w;
                    released := if refcount D =? 0
                                then released w ++ [{| m_source := Some source;
                                                       m_data := Some d |}]
                                else released w |})) /\
  Frame_from source None w = Some ({| m_source := Some source; m_data := None |}, w) /\
  (f ← Frame_from source None; Frame_dtor f) w = Some (tt, w).
Proof.
  split; [|split; reflexivity].
  intros Hd Hr.
  etransitivity;
    [exact (f_equal (f ← Frame_from source (Some d); Frame_dtor f)
                    (counting_intro d D w Hd))|].
  unfold Frame_from, mbind, Op_bind, bind. cbn [m_data].
  unfold mbind, Op_bind, bind.
  rewrite pre_incr_counting. unfold ret.
  rewrite Frame_dtor_counting by reflexivity.
  rewrite <- Z.add_opp_r, wrap_int_add_l.
  replace (refcount D + 1 + - (1)) with (refcount D) by lia.
  rewrite wrap_int_id by done.
  do 2 f_equal. unfold counting. f_equal.
  destruct D as [r t i]; simpl. by apply insert_id.
Qed.

Lemma from_then_destroy_witness :
  (f ← Frame_from 2%positive (Some 1%positive); Frame_dtor f) (sample_world 0)
  = Some (tt, {| heap := heap (sample_world 0); released := [sample_frame] |}).
Proof.
  destruct (from_then_destroy 2%positive 1%positive
              {| refcount := 0; timestamp := 5; image := sample_image |}
              (sample_world 0)) as [H _].
  apply H.
  - reflexivity.
  - unfold in_int, INT_MIN, INT_MAX. simpl. lia.
Defined.

(** X8: a moved-from frame owns nothing.  Moving a frame into a new object
    and destroying both objects, the emptied one first or last, has exactly
    the effect of destroying the original once. *)
Theorem move_then_destroy_both (g : Frame) (w : World) :
  (p ← Frame_move g; Frame_dtor p.2;; Frame_dtor p.1) w = Frame_dtor g w /\
  (p ← Frame_move g; Frame_dtor p.1;; Frame_dtor p.2) w = Frame_dtor g w.
Proof.
  unfold mbind, Op_bind, bind. rewrite Frame_move_spec. cbn [fst snd].
  rewrite Frame_dtor_null by reflexivity. split; [reflexivity|].
  destruct (Frame_dtor g w) as [[[] w']|]; [|reflexivity].
  by rewrite Frame_dtor_null.
Qed.







End Frame_more.

(** * Further properties of the wrappers *)

Module Wrapper_more.
Import cs Wrapper_spec.

(** The identifier a backend function is called on: its first argument,
    where that is a handle. *)
Definition target `{Decls} {R} (f : api R) : option CS_Handle :=
  match f with
  | GetPropertyType h | GetPropertyName h | GetBooleanProperty h
  | SetBooleanProperty h _ | GetDoubleProperty h | SetDoubleProperty h _
  | GetPropertyMin h | GetPropertyMax h | GetPropertyStep h
  | GetPropertyDefault h | GetStringProperty h | GetStringPropertyBuf h _
  | SetStringProperty h _ | GetEnumProperty h | SetEnumProperty h _
  | GetEnumPropertyChoices h => Some h
  | GetSourceName h | GetSourceDescription h | GetSourceLastFrameTime h
  | IsSourceConnected h | GetSourceProperty h _ | CopySource h | ReleaseSource h
  | PutSourceFrame h _ | NotifySourceError h _ | SetSourceConnected h _
  | CreateSourceProperty h _ _ | CreateSourcePropertyCallback h _ _ _
  | RemoveSourceProperty h _ | RemoveSourcePropertyByName h _ => Some h
  | GetSinkName h | GetSinkDescription h | SetSinkSource h _
  | GetSinkSourceProperty h _ | GetSinkSource h | CopySink h | ReleaseSink h
  | GrabSinkFrame h _ | GetSinkError h | SetSinkEnabled h _ => Some h
  | RemoveSourceListener h | RemoveSinkListener h => Some h
  | CreateUSBSourceDev _ _ | CreateUSBSourcePath _ _ | CreateHTTPSource _ _
  | CreateCvSource _ | CreateHTTPSink _ _ _ | CreateCvSink _
  | CreateCvSinkCallback _ _ | AddSourceListener _ _ | AddSinkListener _ _
  | EnumerateUSBCameras => None
  end.

Section More.
Context `{Backend}.

(** The release a destructor makes for identifier [h]. *)
Definition release_calls (release : CS_Handle -> api unit) (h : CS_Handle) : list call :=
  if h =? 0 then [] else [Call (release h) 0].

(** [sink.SetSource(source)] with an lvalue argument: the parameter is
    copy-constructed from it. *)
Definition SetSource_of (source : VideoSource.t) (this : VideoSink.t)
  : W (unit * VideoSink.t) :=
  param ← VideoSource.copy source; VideoSink.SetSource param this.

(** The shape every accessor has: the identifier is kept; the first call is
    addressed to it and handed status 0; all further calls are handed
    status 0 as well. *)
Definition accessor_shape {T R : Type} (handle : T -> CS_Handle)
    (m : T -> W (R * T)) : Prop :=
  forall (this : T) (w : World),
    handle (m this w).1.2 = handle this /\
    exists R' (f : api R') (rest : list call),
      calls (m this w).2 = calls w ++ Call f 0 :: rest /\
      target f = Some (handle this) /\
      Forall (fun c => call_status c = 0) rest.

Lemma VideoSource_dtor_trace (this : VideoSource.t) (w : World) :
  calls (VideoSource.dtor this w).2
  = calls w ++ release_calls ReleaseSource (VideoSource.m_handle this).
Proof.
  unfold release_calls.
  destruct (Z.eqb_spec (VideoSource.m_handle this) 0) as [Hz|Hnz].
  - rewrite VideoSource_dtor_zero by done. simpl. by rewrite app_nil_r.
  - by rewrite VideoSource_dtor_nonzero.
Qed.

Lemma VideoSink_dtor_trace (this : VideoSink.t) (w : World) :
  calls (VideoSink.dtor this w).2
  = calls w ++ release_calls ReleaseSink (VideoSink.m_handle this).
Proof.
  unfold release_calls.
  destruct (Z.eqb_spec (VideoSink.m_handle this) 0) as [Hz|Hnz].
  - rewrite VideoSink_dtor_zero by done. simpl. by rewrite app_nil_r.
  - by rewrite VideoSink_dtor_nonzero.
Qed.

Lemma release_calls_zero_status release h :
  Forall (fun c => call_status c = 0) (release_calls release h).
Proof. unfold release_calls. destruct (h =? 0); repeat constructor. Qed.

Lemma VideoProperty_ctor_zero_status (handle : CS_Property) (w : World) :
  exists rest, calls (VideoProperty.ctor handle w).2 = calls w ++ rest /\
               Forall (fun c => call_status c = 0) rest.
Proof.
  unfold VideoProperty.ctor. destruct (handle =? 0); run_wrapper; simpl.
  - exists []. split; [by rewrite app_nil_r|constructor].
  - eexists. split; [reflexivity|]. repeat constructor.
Qed.

Ltac shape_done :=
  split;
  [ run_wrapper; simpl;
    repeat match goal with
           | |- context [VideoProperty.ctor ?h ?w] =>
               destruct (VideoProperty.ctor h w); simpl in *
           | |- context [VideoSource.dtor ?t ?w] =>
               destruct (VideoSource.dtor t w); simpl in *
           end; reflexivity
  | run_wrapper; simpl;
    repeat match goal with
           | |- context [VideoProperty.ctor ?h ?w] =>
               let rest := fresh "rest" in let Er := fresh "Er" in
               let Fr := fresh "Fr" in
               destruct (VideoProperty_ctor_zero_status h w) as (rest & Er & Fr);
               destruct (VideoProperty.ctor h w); simpl in *; rewrite Er
           | |- context [VideoSource.dtor ?t ?w] =>
               let Er := fresh "Er" in
               pose proof (VideoSource_dtor_trace t w) as Er;
               pose proof (release_calls_zero_status ReleaseSource
                             (VideoSource.m_handle t));
               destruct (VideoSource.dtor t w); simpl in *; rewrite Er
           end;
    rewrite <- ?app_assoc; simpl;
    eexists _, _, _; split; [reflexivity|]; split; [reflexivity|];
    first [assumption | constructor] ].

Lemma VideoProperty_shape R (a : VideoProperty_accessor R) :
  accessor_shape VideoProperty.m_handle (VideoProperty_call a).
Proof.
  intros this w. destruct a; cbn [VideoProperty_call];
    unfold VideoProperty.GetName, VideoProperty.GetBoolean, VideoProperty.SetBoolean,
      VideoProperty.GetDouble, VideoProperty.SetDouble, VideoProperty.GetMin,
      VideoProperty.GetMax, VideoProperty.GetStep, VideoProperty.GetDefault,
      VideoProperty.GetString, VideoProperty.GetStringBuf, VideoProperty.SetString,
      VideoProperty.GetEnum, VideoProperty.SetEnum, VideoProperty.GetChoices;
    shape_done.
Qed.

Lemma VideoProperty_keeps_type R (a : VideoProperty_accessor R) this w :
  VideoProperty.m_type (VideoProperty_call a this w).1.2 = VideoProperty.m_type this.
Proof.
  destruct a; cbn [VideoProperty_call];
    unfold VideoProperty.GetName, VideoProperty.GetBoolean, VideoProperty.SetBoolean,
      VideoProperty.GetDouble, VideoProperty.SetDouble, VideoProperty.GetMin,
      VideoProperty.GetMax, VideoProperty.GetStep, VideoProperty.GetDefault,
      VideoProperty.GetString, VideoProperty.GetStringBuf, VideoProperty.SetString,
      VideoProperty.GetEnum, VideoProperty.SetEnum, VideoProperty.GetChoices;
    by run_wrapper.
Qed.

Lemma VideoSource_shape R (a : VideoSource_accessor R) :
  accessor_shape VideoSource.m_handle (VideoSource_call a).
Proof.
  intros this w. destruct a; cbn [VideoSource_call];
    unfold VideoSource.GetName, VideoSource.GetDescription,
      VideoSource.GetLastFrameTime, VideoSource.IsConnected, VideoSource.GetProperty,
      CvSource.PutFrame, CvSource.NotifyError, CvSource.SetConnected,
      CvSource.CreateProperty, CvSource.CreatePropertyCallback,
      CvSource.RemoveProperty, CvSource.RemovePropertyByName;
    shape_done.
Qed.

Lemma VideoSink_shape R (a : VideoSink_accessor R) :
  accessor_shape VideoSink.m_handle (VideoSink_call a).
Proof.
  intros this w. destruct a; cbn [VideoSink_call];
    unfold VideoSink.GetName, VideoSink.GetDescription, VideoSink.SetSource,
      VideoSink.GetSource, VideoSink.GetSourceProperty,
      CvSink.GrabFrame, CvSink.GetError, CvSink.SetEnabled;
    try shape_done.
  all: destruct (VideoSource.to_bool source); cbn [negb]; shape_done.
Qed.

(** X10: accessors work on the identifier the object holds and keep it.
    Every accessor method of [VideoProperty], [VideoSource]/[CvSource] and
    [VideoSink]/[CvSink] addresses its backend call to [m_handle], whatever
    its value (on identifier 0 the call is still made, with handle 0), and
    leaves [m_handle], and for a property [m_type], unchanged. *)
Theorem accessors_address_own_handle :
  (forall R (a : VideoProperty_accessor R) this w,
     VideoProperty.m_handle (VideoProperty_call a this w).1.2
       = VideoProperty.m_handle this /\
     VideoProperty.m_type (VideoProperty_call a this w).1.2
       = VideoProperty.m_type this /\
     exists R' (f : api R') rest,
       calls (VideoProperty_call a this w).2 = calls w ++ Call f 0 :: rest /\
       target f = Some (VideoProperty.m_handle this)) /\
  (forall R (a : VideoSource_accessor R) this w,
     VideoSource.m_handle (VideoSource_call a this w).1.2
       = VideoSource.m_handle this /\
     exists R' (f : api R') rest,
       calls (VideoSource_call a this w).2 = calls w ++ Call f 0 :: rest /\
       target f = Some (VideoSource.m_handle this)) /\
  (forall R (a : VideoSink_accessor R) this w,
     VideoSink.m_handle (VideoSink_call a this w).1.2
       = VideoSink.m_handle this /\
     exists R' (f : api R') rest,
       calls (VideoSink_call a this w).2 = calls w ++ Call f 0 :: rest /\
       target f = Some (VideoSink.m_handle this)).
Proof.
  split; [|split].
  - intros R a this w.
    destruct (VideoProperty_shape R a this w) as (Hh & R' & f & rest & Hc & Ht & _).
    split; [exact Hh|]. split; [apply VideoProperty_keeps_type|]. by eexists _, _, _.
  - intros R a this w.
    destruct (VideoSource_shape R a this w) as (Hh & R' & f & rest & Hc & Ht & _).
    split; [exact Hh|]. by eexists _, _, _.
  - intros R a this w.
    destruct (VideoSink_shape R a this w) as (Hh & R' & f & rest & Hc & Ht & _).
    split; [exact Hh|]. by eexists _, _, _.
Qed.

(** X11: no stale status reaches the backend from an accessor.  Every
    backend call made in the course of an accessor method, the delegated
    call as well as the type query for a returned property and the release
    of a by-value parameter, is handed a status of 0. *)
Theorem accessor_calls_start_from_zero :
  (forall R (a : VideoProperty_accessor R) this w,
     exists added, calls (VideoProperty_call a this w).2 = calls w ++ added /\
                   Forall (fun c => call_status c = 0) added) /\
  (forall R (a : VideoSource_accessor R) this w,
     exists added, calls (VideoSource_call a this w).2 = calls w ++ added /\
                   Forall (fun c => call_status c = 0) added) /\
  (forall R (a : VideoSink_accessor R) this w,
     exists added, calls (VideoSink_call a this w).2 = calls w ++ added /\
                   Forall (fun c => call_status c = 0) added).
Proof.
  split; [|split]; intros R a this w.
  - destruct (VideoProperty_shape R a this w) as (_ & R' & f & rest & Hc & _ & Hz).
    exists (Call f 0 :: rest). split; [exact Hc|]. by constructor.
  - destruct (VideoSource_shape R a this w) as (_ & R' & f & rest & Hc & _ & Hz).
    exists (Call f 0 :: rest). split; [exact Hc|]. by constructor.
  - destruct (VideoSink_shape R a this w) as (_ & R' & f & rest & Hc & _ & Hz).
    exists (Call f 0 :: rest). split; [exact Hc|]. by constructor.
Qed.

(** ** Copy, move and destruction composed *)

(** The add-reference a copy constructor makes for identifier [h]. *)
Definition copy_calls (copy : CS_Handle -> api CS_Handle) (h : CS_Handle) : list call :=
  if h =? 0 then [] else [Call (copy h) m_status_initial].

(** The identifier the copy holds. *)
Definition copied_handle (copy : CS_Handle -> api CS_Handle) (h : CS_Handle)
    (w : World) : CS_Handle :=
  if h =? 0 then 0 else (exec _ (copy h) m_status_initial (be w)).1.1.

Lemma VideoSource_copy_trace (source : VideoSource.t) (w : World) :
  calls (VideoSource.copy source w).2
    = calls w ++ copy_calls CopySource (VideoSource.m_handle source) /\
  VideoSource.m_handle (VideoSource.copy source w).1
    = copied_handle CopySource (VideoSource.m_handle source) w.
Proof.
  unfold copy_calls, copied_handle.
  destruct (Z.eqb_spec (VideoSource.m_handle source) 0) as [Hz|Hnz].
  - rewrite VideoSource_copy_zero by done. simpl. by rewrite app_nil_r.
  - by rewrite VideoSource_copy_nonzero.
Qed.

Lemma VideoSink_copy_trace (sink : VideoSink.t) (w : World) :
  calls (VideoSink.copy sink w).2
    = calls w ++ copy_calls CopySink (VideoSink.m_handle sink) /\
  VideoSink.m_handle (VideoSink.copy sink w).1
    = copied_handle CopySink (VideoSink.m_handle sink) w.
Proof.
  unfold copy_calls, copied_handle.
  destruct (Z.eqb_spec (VideoSink.m_handle sink) 0) as [Hz|Hnz].
  - rewrite VideoSink_copy_zero by done. simpl. by rewrite app_nil_r.
  - by rewrite VideoSink_copy_nonzero.
Qed.

(** X12: copy assignment adds the new reference before it drops the old
    one.  [a = b] on sources or sinks first asks the backend to copy [b]'s
    identifier (if not 0), then releases the identifier [a] held (if not
    0), in this order and nothing else; [a] ends up as the copy, holding the
    identifier the backend returned.  In a self-assignment the reference is
    therefore never given up before it is taken again. *)
Theorem copy_assign_adds_before_release
    (this source : VideoSource.t) (kthis sink : VideoSink.t) (w : World) :
  (calls (VideoSource.copy_assign this source w).2
     = calls w ++ copy_calls CopySource (VideoSource.m_handle source)
               ++ release_calls ReleaseSource (VideoSource.m_handle this) /\
   (VideoSource.copy_assign this source w).1 = (VideoSource.copy source w).1) /\
  (calls (VideoSink.copy_assign kthis sink w).2
     = calls w ++ copy_calls CopySink (VideoSink.m_handle sink)
               ++ release_calls ReleaseSink (VideoSink.m_handle kthis) /\
   (VideoSink.copy_assign kthis sink w).1 = (VideoSink.copy sink w).1).
Proof.
  split.
  - unfold VideoSource.copy_assign, VideoSource.assign, VideoSource.swap.
    cbv beta delta [mbind mret W_bind W_ret].
    destruct (VideoSource_copy_trace source w) as [Hc _].
    destruct (VideoSource.copy source w) as [other w1]. cbn [fst snd] in *.
    pose proof (VideoSource_dtor_trace this w1) as Hd.
    destruct (VideoSource.dtor this w1) as [dead w2]. cbn [fst snd] in *.
    by rewrite Hd, Hc, app_assoc.
  - unfold VideoSink.copy_assign, VideoSink.assign, VideoSink.swap.
    cbv beta delta [mbind mret W_bind W_ret].
    destruct (VideoSink_copy_trace sink w) as [Hc _].
    destruct (VideoSink.copy sink w) as [other w1]. cbn [fst snd] in *.
    pose proof (VideoSink_dtor_trace kthis w1) as Hd.
    destruct (VideoSink.dtor kthis w1) as [dead w2]. cbn [fst snd] in *.
    by rewrite Hd, Hc, app_assoc.
Qed.

(** X13: a resource that was moved is released once.  Moving a source,
    sink or listener into a new object and destroying both objects leaves
    the world exactly as destroying the original does: the emptied object
    makes no call. *)
Theorem move_then_destroy_releases_once
    (src : VideoSource.t) (ksrc : VideoSink.t)
    (sl : SourceListener.t) (kl : SinkListener.t) (w : World) :
  ((p ← VideoSource.move src; VideoSource.dtor p.2;; VideoSource.dtor p.1) w).2
    = (VideoSource.dtor src w).2 /\
  ((p ← VideoSink.move ksrc; VideoSink.dtor p.2;; VideoSink.dtor p.1) w).2
    = (VideoSink.dtor ksrc w).2 /\
  (p ← SourceListener.move sl; SourceListener.dtor p.2;; SourceListener.dtor p.1) w
    = SourceListener.dtor sl w /\
  (p ← SinkListener.move kl; SinkListener.dtor p.2;; SinkListener.dtor p.1) w
    = SinkListener.dtor kl w.
Proof.
  repeat apply conj; reflexivity.
Qed.

(** X14: binding a sink passes an identifier and takes no reference.
    [SetSource] makes one [SetSinkSource] call on the sink's identifier with
    the identifier of the given source, 0 for an empty one, and no
    [CopySource]; afterwards the by-value parameter is destroyed, which
    releases its identifier if it is not 0.  The sink keeps its identifier
    and holds the status [SetSinkSource] left. *)
Theorem SetSource_passes_identifier (source : VideoSource.t) (this : VideoSink.t)
    (w : World) :
  calls (VideoSink.SetSource source this w).2
    = calls w
      ++ Call (SetSinkSource (VideoSink.m_handle this) (VideoSource.m_handle source)) 0
      :: release_calls ReleaseSource (VideoSource.m_handle source) /\
  (VideoSink.SetSource source this w).1.2
    = VideoSink.set_status
        (exec _ (SetSinkSource (VideoSink.m_handle this) (VideoSource.m_handle source))
              0 (be w)).1.2 this.
Proof.
  unfold VideoSink.SetSource, VideoSource.to_bool.
  assert (E : (if negb (negb (VideoSource.m_handle source =? 0))
               then VideoSink.call_with_status
                      (SetSinkSource (VideoSink.m_handle (VideoSink.set_status 0 this)) 0)
                      (VideoSink.set_status 0 this)
               else VideoSink.call_with_status
                      (SetSinkSource (VideoSink.m_handle (VideoSink.set_status 0 this))
                         (VideoSource.m_handle source))
                      (VideoSink.set_status 0 this))
              = VideoSink.call_with_status
                  (SetSinkSource (VideoSink.m_handle this) (VideoSource.m_handle source))
                  (VideoSink.set_status 0 this)).
  { destruct (Z.eqb_spec (VideoSource.m_handle source) 0) as [->|_]; reflexivity. }
  cbv zeta. rewrite E. clear E.
  run_wrapper.
  match goal with |- context [VideoSource.dtor ?t ?w'] =>
    pose proof (VideoSource_dtor_trace t w') as Hd;
    destruct (VideoSource.dtor t w') as [dead w2] end.
  cbn [fst snd calls] in *. rewrite Hd.
  split; [by rewrite <- app_assoc|reflexivity].
Qed.

(** X15: [sink.SetSource(source)] called with a source object is neutral
    in references.  The parameter is a copy: the backend is asked to copy
    the identifier (if not 0), the sink is bound to the identifier the copy
    holds, and the copy is released again (if it holds one).  When the copy
    fails and holds 0, the sink is told 0 although the caller's source is
    not empty. *)
Theorem SetSource_of_balanced (source : VideoSource.t) (this : VideoSink.t)
    (w : World) :
  calls (SetSource_of source this w).2
    = calls w
      ++ copy_calls CopySource (VideoSource.m_handle source)
      ++ Call (SetSinkSource (VideoSink.m_handle this)
                 (copied_handle CopySource (VideoSource.m_handle source) w)) 0
      :: release_calls ReleaseSource
           (copied_handle CopySource (VideoSource.m_handle source) w).
Proof.
  unfold SetSource_of. cbv beta delta [mbind W_bind].
  destruct (VideoSource_copy_trace source w) as [Hc Hh].
  destruct (VideoSource.copy source w) as [param w1]. cbn [fst snd] in *.
  destruct (SetSource_passes_identifier param this w1) as [Hs _].
  by rewrite Hs, Hc, Hh, <- app_assoc.
Qed.

(** X16: [GetSource] hands out the identifier the backend returned, in a
    new wrapper and without asking for a copy; destroying that wrapper
    releases the identifier, unless it is 0 (the sink is bound to nothing),
    in which case no call is made. *)
Theorem GetSource_wraps_returned_handle (this : VideoSink.t) (w : World) :
  let h := (exec _ (GetSinkSource (VideoSink.m_handle this)) 0 (be w)).1.1 in
  VideoSource.m_handle (VideoSink.GetSource this w).1.1 = h /\
  calls (VideoSink.GetSource this w).2
    = calls w ++ [Call (GetSinkSource (VideoSink.m_handle this)) 0] /\
  calls ((r ← VideoSink.GetSource this; VideoSource.dtor r.1) w).2
    = calls w ++ Call (GetSinkSource (VideoSink.m_handle this)) 0
              :: release_calls ReleaseSource h.
Proof.
  intros h. subst h. cbv beta delta [mbind W_bind].
  assert (E : VideoSink.GetSource this w
              = let o := exec _ (GetSinkSource (VideoSink.m_handle this)) 0 (be w) in
                ((VideoSource.from_handle o.1.1, VideoSink.set_status o.1.2 this),
                 {| be := o.2;
                    calls := calls w ++ [Call (GetSinkSource (VideoSink.m_handle this)) 0] |})).
  { unfold VideoSink.GetSource. by run_wrapper. }
  rewrite E. cbn [fst snd calls]. split; [reflexivity|]. split; [reflexivity|].
  rewrite VideoSource_dtor_trace. cbn [calls VideoSource.from_handle VideoSource.m_handle].
  by rewrite <- app_assoc.
Qed.

(** X17: what a constructor obtained is what the destructor gives back.  A
    source or sink built by one of the creating constructors and then
    destroyed makes the creating call and then one release of the very
    identifier that call returned; if the creation returned 0, nothing is
    released. *)
Theorem construct_then_destroy (c : source_factory) (k : sink_factory) (w : World) :
  calls ((o ← construct_source c; VideoSource.dtor o) w).2
    = calls w ++ Call (source_factory_fn c) m_status_initial
              :: release_calls ReleaseSource
                   (exec _ (source_factory_fn c) m_status_initial (be w)).1.1 /\
  calls ((o ← construct_sink k; VideoSink.dtor o) w).2
    = calls w ++ Call (sink_factory_fn k) m_status_initial
              :: release_calls ReleaseSink
                   (exec _ (sink_factory_fn k) m_status_initial (be w)).1.1.
Proof.
  cbv beta delta [mbind W_bind].
  rewrite construct_source_spec, construct_sink_spec. cbv zeta.
  rewrite VideoSource_dtor_trace, VideoSink_dtor_trace.
  cbn [calls VideoSource.m_handle VideoSink.m_handle].
  by rewrite <- !app_assoc.
Qed.

(** X18: a listener is removed with the identifier its registration
    returned.  Constructing a source or sink listener and destroying it
    makes the registering call and then one removing call on the returned
    identifier, both handed status 0; if the registration returned 0, no
    removing call is made. *)
Theorem listener_registered_then_removed
    (scb : SourceCallback) (kcb : SinkCallback) (eventMask : Z) (w : World) :
  calls ((l ← SourceListener.ctor scb eventMask; SourceListener.dtor l) w).2
    = calls w ++ Call (AddSourceListener scb eventMask) 0
              :: release_calls RemoveSourceListener
                   (exec _ (AddSourceListener scb eventMask) 0 (be w)).1.1 /\
  calls ((l ← SinkListener.ctor kcb eventMask; SinkListener.dtor l) w).2
    = calls w ++ Call (AddSinkListener kcb eventMask) 0
              :: release_calls RemoveSinkListener
                   (exec _ (AddSinkListener kcb eventMask) 0 (be w)).1.1.
Proof.
  unfold SourceListener.ctor, SourceListener.dtor, SinkListener.ctor,
    SinkListener.dtor, release_calls.
  split; run_wrapper; cbn [SourceListener.m_handle SinkListener.m_handle].
  - destruct (r =? 0); cbn [negb]; run_wrapper; simpl;
      by rewrite <- ?app_assoc.
  - destruct (r =? 0); cbn [negb]; run_wrapper; simpl;
      by rewrite <- ?app_assoc.
Qed.

(** ** Property lookups *)

(** What a lookup through [lookup] yields: the owner's status is the one
    the lookup left; the property holds the identifier the lookup returned;
    and if that is not 0, its type and its status are what [GetPropertyType]
    returns and leaves for this identifier, asked in the backend state the
    lookup left. *)
Definition looked_up (lookup : api CS_Property) (w : World)
    (property : VideoProperty.t) (owner_status : CS_Status) : Prop :=
  let o1 := exec _ lookup 0 (be w) in
  owner_status = o1.1.2 /\
  VideoProperty.m_handle property = o1.1.1 /\
  (o1.1.1 <> 0 ->
     let o2 := exec _ (GetPropertyType o1.1.1) 0 o1.2 in
     VideoProperty.m_type property = o2.1.1 /\
     VideoProperty.m_status property = o2.1.2).

Lemma VideoProperty_ctor_nonzero (handle : CS_Property) (w : World) :
  handle <> 0 ->
  let o := exec _ (GetPropertyType handle) 0 (be w) in
  (VideoProperty.ctor handle w).1
  = {| VideoProperty.m_status := o.1.2; VideoProperty.m_handle := handle;
       VideoProperty.m_type := o.1.1 |}.
Proof.
  intros Hnz. apply Z.eqb_neq in Hnz. unfold VideoProperty.ctor. rewrite Hnz.
  by run_wrapper.
Qed.

Lemma VideoProperty_ctor_handle (handle : CS_Property) (w : World) :
  VideoProperty.m_handle (VideoProperty.ctor handle w).1 = handle.
Proof.
  unfold VideoProperty.ctor.
  destruct (Z.eqb_spec handle 0) as [->|_]; [reflexivity|]. by run_wrapper.
Qed.

Ltac lookup_done :=
  unfold looked_up;
  cbv beta delta [VideoProperty.call_with_status VideoSource.call_with_status
                  VideoSink.call_with_status invoke mbind mret W_bind W_ret];
  wrapper_fields;
  match goal with
  | |- context [exec ?R ?f 0 (be ?w)] =>
      let h := fresh "h" in let s := fresh "s" in let b := fresh "b" in
      destruct (exec R f 0 (be w)) as [[h s] b]
  end;
  cbv zeta; cbn [fst snd];
  match goal with
  | |- context [VideoProperty.ctor ?h ?w'] =>
      let Hh := fresh "Hh" in let Hn := fresh "Hn" in
      let Hnz := fresh "Hnz" in
      let property := fresh "property" in let w2 := fresh "w" in
      pose proof (VideoProperty_ctor_handle h w') as Hh;
      pose proof (VideoProperty_ctor_nonzero h w') as Hn;
      destruct (VideoProperty.ctor h w') as [property w2];
      cbn [fst snd be] in *; wrapper_fields;
      split; [reflexivity|]; split; [exact Hh|];
      intros Hnz; rewrite (Hn Hnz); split; reflexivity
  end.

(** X19: a property lookup keeps two statuses apart.  For [GetProperty] on
    a source, both [CreateProperty] overloads of [CvSource] and
    [GetSourceProperty] on a sink: the source or sink ends with the status
    of the lookup itself; the returned property holds the identifier the
    lookup returned and, if it is not 0, the type and the status that the
    type query for this identifier gave in the backend state after the
    lookup. *)
Theorem property_lookup_statuses (name : string) (type : Z)
    (onChange : PropertyCallback) (src : VideoSource.t) (snk : VideoSink.t)
    (w : World) :
  looked_up (GetSourceProperty (VideoSource.m_handle src) name) w
    (VideoSource.GetProperty name src w).1.1
    (VideoSource.m_status (VideoSource.GetProperty name src w).1.2) /\
  looked_up (CreateSourceProperty (VideoSource.m_handle src) name type) w
    (CvSource.CreateProperty name type src w).1.1
    (VideoSource.m_status (CvSource.CreateProperty name type src w).1.2) /\
  looked_up (CreateSourcePropertyCallback (VideoSource.m_handle src) name type onChange) w
    (CvSource.CreatePropertyCallback name type onChange src w).1.1
    (VideoSource.m_status (CvSource.CreatePropertyCallback name type onChange src w).1.2) /\
  looked_up (GetSinkSourceProperty (VideoSink.m_handle snk) name) w
    (VideoSink.GetSourceProperty name snk w).1.1
    (VideoSink.m_status (VideoSink.GetSourceProperty name snk w).1.2).
Proof.
  unfold VideoSource.GetProperty, CvSource.CreateProperty,
    CvSource.CreatePropertyCallback, VideoSink.GetSourceProperty.
  split; [|split; [|split]]; lookup_done.
Qed.

End More.

Section More_runs.
#[local] Existing Instance Sample.decls.
#[local] Existing Instance Sample.ok.
Local Open Scope string_scope.

Lemma property_lookup_statuses_witness :
  (VideoSource.GetProperty "gain" source5 fresh).1.1
  = {| VideoProperty.m_status := 0; VideoProperty.m_handle := 7;
       VideoProperty.m_type := 1 |}.
Proof.
  destruct (property_lookup_statuses "gain" 0 (tt : @PropertyCallback Sample.decls)
              source5 sink5 fresh)
    as [(_ & Hh & Ht) _].
  destruct Ht as [Ht Hs]; [discriminate|].
  destruct (VideoSource.GetProperty "gain" source5 fresh).1.1 as [s h t].
  simpl in *. by rewrite Hh, Ht, Hs.
Defined.

End More_runs.
End Wrapper_more.